(** * Indian_companies_sectors.py: the CompanyDataExtractor batch job

    A shallow embedding of [src/Indian_companies_sectors.py].  The class
    [CompanyDataExtractor] talks to three collaborators: a MySQL server
    (through mysql.connector), the market-data provider (through yfinance)
    and the console / the process clock.  The program state that matters is
    the [connection] attribute of the extractor, the two tables, and the
    chronological list of externally visible actions (the [trace]).  What
    the collaborators answer (whether a call raises, whether the
    connection still answers, how the server compares keys, what time it
    is) is given by an environment of oracles that may depend on
    everything that happened so far. *)

From Stdlib Require Import ZArith QArith Qround List Ascii String Bool Lia.
From stdpp Require Import base option list strings gmap.

Local Open Scope Z_scope.
Local Open Scope string_scope.
Local Open Scope list_scope.

(** ** Python values and exceptions *)

Module Py.

(** The values that travel between the provider, the [data] dictionary
    and the SQL statement parameters: [None], integers and strings. *)
Inductive value : Type :=
| VNone
| VInt (z : Z)
| VStr (s : string).

#[global] Instance value_eq_dec : EqDecision value.
Proof. solve_decision. Defined.

(** Exceptions raised by the calls of the program.  [MySQLError] stands
    for [mysql.connector.Error] and all of its subclasses, the class named
    [Error] in the source; [OtherException] is any other subclass of
    [Exception], named by its class.  Asynchronous signals that are not
    errors (KeyboardInterrupt, SystemExit) can interrupt any statement and
    are not part of the model. *)
Inductive exn : Type :=
| MySQLError (msg : string)
| KeyError (key : string)
| ValueError (msg : string)
| OverflowError (msg : string)
| OSError (msg : string)
| OtherException (cls msg : string).

(** [except Error as e] *)
Definition isinstance_Error (e : exn) : bool :=
  match e with
  | MySQLError _ => true
  | KeyError _ | ValueError _ | OverflowError _ | OSError _
  | OtherException _ _ => false
  end.

(** [except Exception as e]: every error above is an [Exception]. *)
Definition isinstance_Exception (e : exn) : bool :=
  match e with
  | MySQLError _ | KeyError _ | ValueError _ | OverflowError _ | OSError _
  | OtherException _ _ => true
  end.

(** Outcome of a call: it returns or it raises. *)
Inductive result (A : Type) : Type :=
| Ret (a : A)
| Raise (e : exn).
Arguments Ret {A} a.
Arguments Raise {A} e.

(** [d.get(key, None)] *)
Definition dict_get (d : gmap string value) (key : string) : value :=
  default VNone (d !! key).

(** Truth value of an [Optional[Dict]]: [None] and the empty dictionary
    are false. *)
Definition truthy_dict (d : option (gmap string value)) : bool :=
  match d with
  | None => false
  | Some m => bool_decide (m ≠ ∅)
  end.

(** Truth value of what [connect_db] returns: [True], [False] or [None]. *)
Definition truthy_flag (b : option bool) : bool :=
  match b with
  | Some true => true
  | Some false | None => false
  end.

(** The argument of [time.sleep] in whole nanoseconds, rounded away from
    zero, as the interpreter converts it before anything else. *)
Definition nanoseconds (seconds : Q) : Z :=
  if Qle_bool 0 seconds
  then Qceiling (seconds * (1000000000 # 1))%Q
  else Qfloor (seconds * (1000000000 # 1))%Q.

(** What [time.sleep(seconds)] raises on its argument alone: the
    nanoseconds must fit a signed 64-bit integer, and must not be
    negative.  (The product is taken exactly; the rounding of a
    floating-point product is not modelled.) *)
Definition time_sleep_check (seconds : Q) : option exn :=
  let ns := nanoseconds seconds in
  if ((ns <? - 9223372036854775808) || (9223372036854775808 <=? ns))%Z
  then Some (OverflowError "timestamp too large to convert to C _PyTime_t")
  else if (ns <? 0)%Z
  then Some (ValueError "sleep length must be non-negative")
  else None.

End Py.
Export Py.

(** ** The destination table and the upsert statement *)

Module Sql.

(** A row of [India_listed_companies_information], column by column as
    [create_table] declares them.  Timestamps are whole seconds. *)
Record Row : Type := mkRow {
  id : Z;
  symbol : value;
  revenue : value;
  market_cap : value;
  industry : value;
  sector : value;
  created_at : Z;
  updated_at : Z
}.

(** The table: its rows in insertion order and the AUTO_INCREMENT
    counter of [id]. *)
Record Table : Type := mkTable {
  rows : list Row;
  auto_increment : Z
}.

Definition empty_table : Table := {| rows := []; auto_increment := 1 |}.

(** The tuple [values] bound to the five placeholders. *)
Record Values : Type := mkValues {
  v_symbol : value;
  v_revenue : value;
  v_market_cap : value;
  v_industry : value;
  v_sector : value
}.

Section Keyed.

(** [symbol VARCHAR(512) NOT NULL UNIQUE] names no collation, so the
    server compares keys with the collation it gives the column:
    [collation x y] tells whether it takes the strings [x] and [y] for the
    same key (case variants, for one, under the usual defaults). *)
Variable collation : string -> string -> bool.

(** Equal values are the same key under every collation. *)
Definition same_key (a b : value) : bool :=
  bool_decide (a = b) ||
  match a, b with
  | VStr x, VStr y => collation x y
  | _, _ => false
  end.

(** The row [r] holds the key [k]. *)
Definition has_symbol (k : value) (r : Row) : bool :=
  same_key (symbol r) k.

Definition rows_of (k : value) (t : Table) : list Row :=
  List.filter (has_symbol k) (rows t).

(** Do the four assigned columns already hold the new values? *)
Definition same_data (v : Values) (r : Row) : bool :=
  bool_decide (revenue r = v_revenue v) &&
  bool_decide (market_cap r = v_market_cap v) &&
  bool_decide (industry r = v_industry v) &&
  bool_decide (sector r = v_sector v).

(** [INSERT ... VALUES (%s, %s, %s, %s, %s)] on a free key: [id] from the
    counter, both timestamps default to CURRENT_TIMESTAMP. *)
Definition new_row (now : Z) (v : Values) (t : Table) : Row :=
  {| id := auto_increment t;
     symbol := v_symbol v;
     revenue := v_revenue v;
     market_cap := v_market_cap v;
     industry := v_industry v;
     sector := v_sector v;
     created_at := now;
     updated_at := now |}.

(** [ON DUPLICATE KEY UPDATE revenue = VALUES(revenue), ...] on the row
    that holds the key.  [symbol] and [created_at] are not assigned.
    [updated_at] is declared [ON UPDATE CURRENT_TIMESTAMP]: the server
    refreshes it when the statement changes the value of some other
    column of the row, and leaves it alone when every assigned column
    keeps its value. *)
Definition on_duplicate_key_update (now : Z) (v : Values) (r : Row) : Row :=
  if same_data v r then r
  else {| id := id r;
          symbol := symbol r;
          revenue := v_revenue v;
          market_cap := v_market_cap v;
          industry := v_industry v;
          sector := v_sector v;
          created_at := created_at r;
          updated_at := now |}.

(** The whole statement of [insert_company_data].  The engine takes a
    value of the AUTO_INCREMENT counter for the statement before it looks
    for the key, so the counter moves on the duplicate branch too. *)
Definition insert_on_duplicate_key_update (now : Z) (v : Values) (t : Table) : Table :=
  if existsb (has_symbol (v_symbol v)) (rows t)
  then {| rows := List.map (fun r => if has_symbol (v_symbol v) r
                                     then on_duplicate_key_update now v r
                                     else r) (rows t);
          auto_increment := auto_increment t + 1 |}
  else {| rows := rows t ++ [new_row now v t];
          auto_increment := auto_increment t + 1 |}.

End Keyed.

(** No two rows hold the same symbol. *)
Definition unique_symbols (t : Table) : Prop :=
  NoDup (List.map symbol (rows t)).

End Sql.
Export Sql.

(** ** State, observable actions and the environment *)

Module World.

(** The connection object returned by [mysql.connector.connect]; [closed]
    tells whether [close()] was called on it. *)
Record Connection : Type := mkConnection {
  closed : bool
}.

(** The three SQL statements of the program. *)
Inductive Query : Type :=
| CreateTableIfNotExists
| SelectSymbolName
| InsertOnDuplicateKeyUpdate (v : Values).

(** The lines the program prints, one constructor per [print] call. *)
Inductive Line : Type :=
| ConnectedMsg
| ConnectErrorMsg (e : exn)
| NotConnectedMsg
| FetchedMsg (n : nat)
| FetchSymbolsErrorMsg (e : exn)
| FetchDataErrorMsg (symbol : string) (e : exn)
| TableCreatedMsg
| CreateTableErrorMsg (e : exn)
| InsertErrorMsg (symbol : value) (e : exn)
| StartingMsg (total : nat)
| ProcessingMsg (idx total : nat) (name symbol : string)
| InsertedMsg (symbol : string)
| RuleMsg
| CompleteMsg
| TotalMsg (total : nat)
| SuccessfulMsg (successful : nat)
| FailedMsg (failed : nat)
| ClosedMsg.

(** Externally visible actions, recorded when the call is made; [Sleep]
    is a pause that took place. *)
Inductive Event : Type :=
| Connect
| Execute (q : Query)
| Commit
| Close
| Ticker (ticker_symbol : string)
| Sleep (seconds : Q)
| Stdout (l : Line).

(** [connection] is the attribute of the extractor; [source_table] and
    [information_table] are the two tables as the connection of the
    extractor sees them: a statement the server accepted shows there even
    when its [commit()] raised. *)
Record State : Type := mkState {
  connection : option Connection;
  source_table : list (string * string);
  information_table : option Table;
  trace : list Event
}.

(** What the collaborators answer, given the actions so far.
    - [mysql_connect]: the message of the [Error] raised by
      [mysql.connector.connect], if it raises;
    - [mysql_ping]: whether the server answers on the connection, which
      is what [is_connected()] asks each time it is called;
    - [mysql_fault]: the message of the [Error] raised while a statement
      is sent ([execute], [fetchall], and the [cursor()] that comes right
      before them in [create_table] and [get_company_symbols]), if any;
      a statement that raises leaves the tables as they were, a statement
      that does not raise stores the values it is given (the server is
      taken to be in strict mode: what does not fit a column is an
      [Error], not a changed value);
    - [cursor_fault]: the message of the [Error] raised by the
      [cursor()] of [insert_company_data], if any; there the subscripts
      of [data] are evaluated between [cursor()] and [execute];
    - [commit_fault]: the message of the [Error] raised by [commit()], if
      any;
    - [collation]: how the server compares the keys of the [symbol]
      column;
    - [current_timestamp]: the server's CURRENT_TIMESTAMP;
    - [yf_info]: what [yf.Ticker(ticker_symbol).info] returns or raises;
    - [sleep_fault]: the message of the [OSError] of the system call
      behind [time.sleep], if it fails for that length. *)
Record Env : Type := mkEnv {
  mysql_connect : list Event -> option string;
  mysql_ping : list Event -> bool;
  mysql_fault : list Event -> Query -> option string;
  cursor_fault : list Event -> option string;
  commit_fault : list Event -> option string;
  collation : string -> string -> bool;
  current_timestamp : list Event -> Z;
  yf_info : list Event -> string -> result (gmap string value);
  sleep_fault : list Event -> Q -> option string
}.

Definition set_connection (c : option Connection) (s : State) : State :=
  {| connection := c;
     source_table := source_table s;
     information_table := information_table s;
     trace := trace s |}.

Definition set_information_table (t : option Table) (s : State) : State :=
  {| connection := connection s;
     source_table := source_table s;
     information_table := t;
     trace := trace s |}.

Definition record_event (ev : Event) (s : State) : State :=
  {| connection := connection s;
     source_table := source_table s;
     information_table := information_table s;
     trace := trace s ++ [ev] |}.

(** [c.is_connected()] after the actions [h]: a closed connection does
    not answer, an open one answers if the server does. *)
Definition is_connected (env : Env) (c : Connection) (h : list Event) : bool :=
  negb (closed c) && mysql_ping env h.

(** [not self.connection or not self.connection.is_connected()] *)
Definition not_connected (env : Env) (s : State) : bool :=
  match connection s with
  | None => true
  | Some c => negb (is_connected env c (trace s))
  end.

(** The rows of the destination table, none while it does not exist. *)
Definition information_rows (s : State) : list Row :=
  match information_table s with
  | None => []
  | Some t => rows t
  end.

End World.
Export World.

(** ** Computations: state passing with exceptions *)

Module Comp.

Definition M (A : Type) : Type := State -> result A * State.

Definition ret {A} (a : A) : M A := fun s => (Ret a, s).

Definition raise {A} (e : exn) : M A := fun s => (Raise e, s).

Definition bind {A B} (m : M A) (k : A -> M B) : M B :=
  fun s => match m s with
           | (Ret a, s') => k a s'
           | (Raise e, s') => (Raise e, s')
           end.

(** [try: body  except cls as e: handler e] *)
Definition try_except {A} (body : M A) (cls : exn -> bool) (handler : exn -> M A) : M A :=
  fun s => match body s with
           | (Ret a, s') => (Ret a, s')
           | (Raise e, s') => if cls e then handler e s' else (Raise e, s')
           end.

Definition get : M State := fun s => (Ret s, s).

Definition modify (f : State -> State) : M unit := fun s => (Ret tt, f s).

Definition emit (ev : Event) : M unit := modify (record_event ev).

(** [print(...)]; the console is taken to accept every line. *)
Definition print (l : Line) : M unit := emit (Stdout l).

(** [d[key]] *)
Definition getitem (d : gmap string value) (key : string) : M value :=
  match d !! key with
  | Some v => ret v
  | None => raise (KeyError key)
  end.

End Comp.
Export Comp.

Declare Scope comp_scope.
Delimit Scope comp_scope with comp.
Notation "'do' x <- m ; k" := (bind m (fun x => k))
  (at level 10, x name, m at level 100, k at level 200) : comp_scope.

(** ** The class CompanyDataExtractor *)

Module CompanyDataExtractor.
Section Methods.

Variable env : Env.

Local Open Scope comp_scope.

(** *** Calls into the libraries *)

(** [mysql.connector.connect(host=..., database=..., user=..., password=...)] *)
Definition mysql_connector_connect : M Connection :=
  do s <- get;
  do _ <- emit Connect;
  match mysql_connect env (trace s) with
  | Some msg => raise (MySQLError msg)
  | None => ret {| closed := false |}
  end.

(** [cursor.execute(create_table_query)]: CREATE TABLE IF NOT EXISTS
    leaves an existing table as it is.  The statement commits by itself. *)
Definition execute_create_table : M unit :=
  do s <- get;
  do _ <- emit (Execute CreateTableIfNotExists);
  match mysql_fault env (trace s) CreateTableIfNotExists with
  | Some msg => raise (MySQLError msg)
  | None =>
      modify (set_information_table
                (Some (default empty_table (information_table s))))
  end.

(** [cursor.execute(query); results = cursor.fetchall()] *)
Definition execute_select : M (list (string * string)) :=
  do s <- get;
  do _ <- emit (Execute SelectSymbolName);
  match mysql_fault env (trace s) SelectSymbolName with
  | Some msg => raise (MySQLError msg)
  | None => ret (source_table s)
  end.

(** [cursor.execute(insert_query, values)].  Besides the faults of the
    environment, the statement is rejected when the table is missing and
    when the NOT NULL key is [None]. *)
Definition execute_insert (v : Values) : M unit :=
  do s <- get;
  do _ <- emit (Execute (InsertOnDuplicateKeyUpdate v));
  match mysql_fault env (trace s) (InsertOnDuplicateKeyUpdate v) with
  | Some msg => raise (MySQLError msg)
  | None =>
      match information_table s with
      | None => raise (MySQLError "Table doesn't exist")
      | Some t =>
          if bool_decide (v_symbol v = VNone)
          then raise (MySQLError "Column 'symbol' cannot be null")
          else modify (set_information_table
                         (Some (insert_on_duplicate_key_update (collation env)
                                  (current_timestamp env (trace s)) v t)))
      end
  end.

(** [cursor = self.connection.cursor()] in [insert_company_data] *)
Definition connection_cursor : M unit :=
  do s <- get;
  match cursor_fault env (trace s) with
  | Some msg => raise (MySQLError msg)
  | None => ret tt
  end.

(** [self.connection.commit()] *)
Definition commit : M unit :=
  do s <- get;
  do _ <- emit Commit;
  match commit_fault env (trace s) with
  | Some msg => raise (MySQLError msg)
  | None => ret tt
  end.

(** [ticker = yf.Ticker(ticker_symbol); info = ticker.info] *)
Definition yf_Ticker_info (ticker_symbol : string) : M (gmap string value) :=
  do s <- get;
  do _ <- emit (Ticker ticker_symbol);
  fun s' => (yf_info env (trace s) ticker_symbol, s').

(** [time.sleep(seconds)]: the argument is checked, then the system is
    asked to pause. *)
Definition time_sleep (seconds : Q) : M unit :=
  match time_sleep_check seconds with
  | Some e => raise e
  | None =>
      do s <- get;
      match sleep_fault env (trace s) seconds with
      | Some msg => raise (OSError msg)
      | None => emit (Sleep seconds)
      end
  end.

(** *** Methods *)

Definition connect_db : M (option bool) :=
  try_except
    (do c <- mysql_connector_connect;
     do _ <- modify (set_connection (Some c));
     do s <- get;
     if is_connected env c (trace s)
     then do _ <- print ConnectedMsg; ret (Some true)
     else ret None)
    isinstance_Error
    (fun e => do _ <- print (ConnectErrorMsg e); ret (Some false)).

Definition get_company_symbols : M (list (string * string)) :=
  do s <- get;
  if not_connected env s
  then do _ <- print NotConnectedMsg; ret []
  else
    try_except
      (do results <- execute_select;
       do _ <- print (FetchedMsg (length results));
       ret results)
      isinstance_Error
      (fun e => do _ <- print (FetchSymbolsErrorMsg e); ret []).

Definition fetch_company_data (symbol : string) : M (option (gmap string value)) :=
  try_except
    (let ticker_symbol := symbol in
     do info <- yf_Ticker_info ticker_symbol;
     let data : gmap string value :=
       <["symbol" := VStr symbol]>
       (<["revenue" := dict_get info "totalRevenue"]>
       (<["market_cap" := dict_get info "marketCap"]>
       (<["industry" := dict_get info "industry"]>
       (<["sector" := dict_get info "sector"]> ∅)))) in
     ret (Some data))
    isinstance_Exception
    (fun e => do _ <- print (FetchDataErrorMsg symbol e); ret None).

Definition create_table : M bool :=
  do s <- get;
  if not_connected env s
  then do _ <- print NotConnectedMsg; ret false
  else
    try_except
      (do _ <- execute_create_table;
       do _ <- commit;
       do _ <- print TableCreatedMsg;
       ret true)
      isinstance_Error
      (fun e => do _ <- print (CreateTableErrorMsg e); ret false).

Definition insert_company_data (data : gmap string value) : M bool :=
  do s <- get;
  if not_connected env s
  then do _ <- print NotConnectedMsg; ret false
  else
    try_except
      (do _ <- connection_cursor;
       do sym <- getitem data "symbol";
       do rev <- getitem data "revenue";
       do cap <- getitem data "market_cap";
       do ind <- getitem data "industry";
       do sec <- getitem data "sector";
       let values := mkValues sym rev cap ind sec in
       do _ <- execute_insert values;
       do _ <- commit;
       ret true)
      isinstance_Error
      (fun e =>
         do sym <- getitem data "symbol";
         do _ <- print (InsertErrorMsg sym e);
         ret false).

Definition close_connection : M unit :=
  do s <- get;
  if negb (not_connected env s)
  then
    do _ <- emit Close;
    do _ <- modify (set_connection (Some {| closed := true |}));
    print ClosedMsg
  else ret tt.

(** The body of the [for] loop of [process_all_companies], for the pair
    [(symbol, name)] at position [idx]; it returns the two counters. *)
Definition process_company (delay : Q) (total idx : nat)
    (company : string * string) (counters : nat * nat) : M (nat * nat) :=
  let '(symbol, name) := company in
  let '(successful, failed) := counters in
  do _ <- print (ProcessingMsg idx total name symbol);
  do data <- fetch_company_data symbol;
  do counters' <-
    match data with
    | Some d =>
        if truthy_dict data
        then
          do ok <- insert_company_data d;
          if ok
          then do _ <- print (InsertedMsg symbol); ret (S successful, failed)
          else ret (successful, S failed)
        else ret (successful, S failed)
    | None => ret (successful, S failed)
    end;
  do _ <- time_sleep delay;
  ret counters'.

(** [for idx, (symbol, name) in enumerate(companies, 1): ...] *)
Fixpoint process_loop (delay : Q) (total idx : nat)
    (companies : list (string * string)) (counters : nat * nat) : M (nat * nat) :=
  match companies with
  | [] => ret counters
  | company :: rest =>
      do counters' <- process_company delay total idx company counters;
      process_loop delay total (S idx) rest counters'
  end.

(** The six lines of the summary. *)
Definition print_summary (total successful failed : nat) : M unit :=
  do _ <- print RuleMsg;
  do _ <- print CompleteMsg;
  do _ <- print (TotalMsg total);
  do _ <- print (SuccessfulMsg successful);
  do _ <- print (FailedMsg failed);
  print RuleMsg.

Definition process_all_companies (delay : Q) : M unit :=
  do connected <- connect_db;
  if negb (truthy_flag connected) then ret tt else
  do created <- create_table;
  if negb created then ret tt else
  do companies <- get_company_symbols;
  let total := length companies in
  do _ <- print (StartingMsg total);
  do counters <- process_loop delay total 1 companies (0%nat, 0%nat);
  let '(successful, failed) := counters in
  do _ <- print_summary total successful failed;
  close_connection.

End Methods.
End CompanyDataExtractor.
Export CompanyDataExtractor.

(** ** Reading a trace *)

Module Observe.

(** The argument of each provider query, in order. *)
Definition ticker_of (ev : Event) : option string :=
  match ev with
  | Ticker t => Some t
  | _ => None
  end.
Definition tickers (tr : list Event) : list string := omap ticker_of tr.

(** The length of each pause, in order. *)
Definition sleep_of (ev : Event) : option Q :=
  match ev with
  | Sleep d => Some d
  | _ => None
  end.
Definition sleeps (tr : list Event) : list Q := omap sleep_of tr.

(** The key of each attempted upsert, in order. *)
Definition upsert_key_of (ev : Event) : option value :=
  match ev with
  | Execute (InsertOnDuplicateKeyUpdate v) => Some (v_symbol v)
  | _ => None
  end.
Definition upsert_keys (tr : list Event) : list value := omap upsert_key_of tr.

(** Calls that reach the server after the connection is made. *)
Definition is_store_call (ev : Event) : bool :=
  match ev with
  | Execute _ | Commit => true
  | _ => false
  end.

Definition is_close (ev : Event) : bool :=
  match ev with
  | Close => true
  | _ => false
  end.

(** The summary block as it appears in the trace. *)
Definition summary_events (total successful failed : nat) : list Event :=
  [Stdout RuleMsg; Stdout CompleteMsg; Stdout (TotalMsg total);
   Stdout (SuccessfulMsg successful); Stdout (FailedMsg failed); Stdout RuleMsg].

(** What [close_connection] adds to the trace in the state [s]: the
    [close()] and its line when the connection answers, nothing
    otherwise. *)
Definition closing (env : Env) (s : State) : list Event :=
  if not_connected env s then [] else [Close; Stdout ClosedMsg].

(** The dictionary [fetch_company_data] builds from the provider's
    [info]. *)
Definition fetched_data (symbol : string) (info : gmap string value) : gmap string value :=
  <["symbol" := VStr symbol]>
  (<["revenue" := dict_get info "totalRevenue"]>
  (<["market_cap" := dict_get info "marketCap"]>
  (<["industry" := dict_get info "industry"]>
  (<["sector" := dict_get info "sector"]> ∅)))).

(** The row [r] holds the four data fields of the dictionary [data]. *)
Definition carries (data : gmap string value) (r : Row) : Prop :=
  data !! "revenue" = Some (revenue r) /\
  data !! "market_cap" = Some (market_cap r) /\
  data !! "industry" = Some (industry r) /\
  data !! "sector" = Some (sector r).

(** The tuple [values] that [insert_company_data] builds from [data]. *)
Definition values_of (data : gmap string value) : Values :=
  {| v_symbol := dict_get data "symbol";
     v_revenue := dict_get data "revenue";
     v_market_cap := dict_get data "market_cap";
     v_industry := dict_get data "industry";
     v_sector := dict_get data "sector" |}.

(** The state after [print]ing or calling. *)
Fixpoint record_events (evs : list Event) (s : State) : State :=
  match evs with
  | [] => s
  | ev :: rest => record_events rest (record_event ev s)
  end.

(** [time.sleep(delay)] once the counters of the iteration are set. *)
Definition pause (env : Env) (delay : Q) (counters : nat * nat) (s : State)
    : result (nat * nat) * State :=
  match time_sleep_check delay with
  | Some e => (Raise e, s)
  | None =>
      match sleep_fault env (trace s) delay with
      | Some msg => (Raise (OSError msg), s)
      | None => (Ret counters, record_event (Sleep delay) s)
      end
  end.

(** [time.sleep] accepts the delay: the argument passes its check and the
    system call does not fail, whenever it is made. *)
Definition sleep_accepted (env : Env) (delay : Q) : Prop :=
  time_sleep_check delay = None /\ forall h, sleep_fault env h delay = None.

(** The key [k] is the symbol of one of the pairs of [companies]. *)
Definition from_companies (companies : list (string * string)) (k : value) : Prop :=
  exists symbol, k = VStr symbol /\ In symbol (List.map fst companies).

(** The four provider fields and the keys they are stored under. *)
Definition provider_fields : list (string * string) :=
  [("totalRevenue", "revenue"); ("marketCap", "market_cap");
   ("industry", "industry"); ("sector", "sector")].

End Observe.
Export Observe.

(** ** Concrete runs *)

Module Scenario.

Definition tcs_info : gmap string value :=
  <["totalRevenue" := VInt 2400000000000]>
  (<["marketCap" := VInt 14000000000000]>
  (<["industry" := VStr "Information Technology Services"]>
  (<["sector" := VStr "Technology"]> ∅))).

(** A provider answer without revenue and sector. *)
Definition sparse_info : gmap string value :=
  <["marketCap" := VInt 5000000]> (<["industry" := VStr "Banks"]> ∅).

(** The provider knows "TCS.NS" (in either case) fully, "NEWCO.NS" in
    part, and raises for every other symbol. *)
Definition provider (h : list Event) (ticker_symbol : string)
    : result (gmap string value) :=
  if String.eqb ticker_symbol "TCS.NS" || String.eqb ticker_symbol "tcs.ns"
  then Ret tcs_info
  else if String.eqb ticker_symbol "NEWCO.NS" then Ret sparse_info
  else Raise (OtherException "HTTPError" "404 Client Error").

(** The server clock: one second per recorded action. *)
Definition clock (h : list Event) : Z := 1700000000 + Z.of_nat (length h).

(** A collation that ignores the case of the letters A to Z. *)
Definition lower_ascii (a : ascii) : ascii :=
  let n := nat_of_ascii a in
  if (Nat.leb 65 n && Nat.leb n 90)%bool then ascii_of_nat (n + 32) else a.

Fixpoint lower (s : string) : string :=
  match s with
  | EmptyString => EmptyString
  | String a rest => String (lower_ascii a) (lower rest)
  end.

Definition case_insensitive (x y : string) : bool :=
  String.eqb (lower x) (lower y).

Definition connected : Connection := {| closed := false |}.

(** Everything works. *)
Definition env_ok : Env :=
  {| mysql_connect := fun _ => None;
     mysql_ping := fun _ => true;
     mysql_fault := fun _ _ => None;
     cursor_fault := fun _ => None;
     commit_fault := fun _ => None;
     collation := case_insensitive;
     current_timestamp := clock;
     yf_info := provider;
     sleep_fault := fun _ _ => None |}.

(** The account may not create tables. *)
Definition env_ddl_denied : Env :=
  {| mysql_connect := fun _ => None;
     mysql_ping := fun _ => true;
     mysql_fault := fun _ q =>
       match q with
       | CreateTableIfNotExists => Some "CREATE command denied to user"
       | _ => None
       end;
     cursor_fault := fun _ => None;
     commit_fault := fun _ => None;
     collation := case_insensitive;
     current_timestamp := clock;
     yf_info := provider;
     sleep_fault := fun _ _ => None |}.

(** The source table cannot be read. *)
Definition env_select_fails : Env :=
  {| mysql_connect := fun _ => None;
     mysql_ping := fun _ => true;
     mysql_fault := fun _ q =>
       match q with
       | SelectSymbolName => Some "Table 'india_listed_companies' doesn't exist"
       | _ => None
       end;
     cursor_fault := fun _ => None;
     commit_fault := fun _ => None;
     collation := case_insensitive;
     current_timestamp := clock;
     yf_info := provider;
     sleep_fault := fun _ _ => None |}.

(** The server stops answering once the table is created: the
    connection answers for the first five actions only. *)
Definition env_connection_lost : Env :=
  {| mysql_connect := fun _ => None;
     mysql_ping := fun h => Nat.ltb (length h) 5;
     mysql_fault := fun _ _ => None;
     cursor_fault := fun _ => None;
     commit_fault := fun _ => None;
     collation := case_insensitive;
     current_timestamp := clock;
     yf_info := provider;
     sleep_fault := fun _ _ => None |}.

(** A fresh extractor ([self.connection = None]) in front of a database
    with the given source rows and destination table. *)
Definition fresh (src : list (string * string)) (dst : option Table) : State :=
  {| connection := None;
     source_table := src;
     information_table := dst;
     trace := [] |}.

Definition two_companies : list (string * string) :=
  [("TCS.NS", "Tata Consultancy"); ("BADSYM.NS", "Bad Co")].

Definition tcs_row : Row :=
  {| id := 1;
     symbol := VStr "TCS.NS";
     revenue := VInt 2400000000000;
     market_cap := VInt 14000000000000;
     industry := VStr "Information Technology Services";
     sector := VStr "Technology";
     created_at := 1600000000;
     updated_at := 1600000000 |}.

(** The same company as stored by an earlier run with older figures. *)
Definition old_tcs_row : Row :=
  {| id := 1;
     symbol := VStr "TCS.NS";
     revenue := VInt 2000000000000;
     market_cap := VInt 12000000000000;
     industry := VStr "Information Technology Services";
     sector := VStr "Technology";
     created_at := 1600000000;
     updated_at := 1600000000 |}.

(** A connected extractor whose destination table holds [r]. *)
Definition holding (r : Row) : State :=
  {| connection := Some connected;
     source_table := two_companies;
     information_table := Some {| rows := [r]; auto_increment := 2 |};
     trace := [] |}.

Definition tcs_data : gmap string value := fetched_data "TCS.NS" tcs_info.

(** The same figures fetched under the lower-case spelling of the
    symbol. *)
Definition tcs_lower_data : gmap string value := fetched_data "tcs.ns" tcs_info.

End Scenario.

(** ** What a run keeps *)

Module Keeps.

(** What identifies a stored row and is never assigned again: its [id],
    its key and its creation time. *)
Definition row_identity (r : Row) : Z * value * Z :=
  (id r, symbol r, created_at r).

(** No two rows of the destination table hold the same symbol. *)
Definition unique_rows (s : State) : Prop :=
  NoDup (List.map symbol (information_rows s)).

(** The rows the server finds under the key [k]. *)
Definition stored (env : Env) (k : value) (s : State) : list Row :=
  List.filter (has_symbol (collation env) k) (information_rows s).

(** The rows the server does not find under the key [k]. *)
Definition other_rows (env : Env) (k : value) (s : State) : list Row :=
  List.filter (fun r => negb (has_symbol (collation env) k r)) (information_rows s).

(** The row [r] is found under the symbol of one of the pairs. *)
Definition holds_listed (env : Env) (companies : list (string * string)) (r : Row) : bool :=
  existsb (fun symbol => has_symbol (collation env) (VStr symbol) r)
    (List.map fst companies).

(** The rows found under no symbol of the list. *)
Definition unlisted_rows (env : Env) (companies : list (string * string))
    (s : State) : list Row :=
  List.filter (fun r => negb (holds_listed env companies r)) (information_rows s).

(** The five subscripts of [data] in [insert_company_data], in the order
    the tuple [values] evaluates them. *)
Definition five_keys : list string :=
  ["symbol"; "revenue"; "market_cap"; "industry"; "sector"].

Definition missing (data : gmap string value) (key : string) : bool :=
  match data !! key with
  | None => true
  | Some _ => false
  end.

(** The first subscript that fails, if any. *)
Definition first_missing (data : gmap string value) : option string :=
  List.find (missing data) five_keys.

(** The lines an iteration of the loop can print. *)
Definition iteration_line (l : Line) : bool :=
  match l with
  | ProcessingMsg _ _ _ _ | FetchDataErrorMsg _ _ | NotConnectedMsg
  | InsertErrorMsg _ _ | InsertedMsg _ => true
  | _ => false
  end.

(** The calls an iteration of the loop can make. *)
Definition iteration_event (ev : Event) : bool :=
  match ev with
  | Stdout l => iteration_line l
  | Ticker _ | Sleep _ | Commit
  | Execute (InsertOnDuplicateKeyUpdate _) => true
  | Connect | Close | Execute CreateTableIfNotExists
  | Execute SelectSymbolName => false
  end.

(** The provider answers for every symbol of [companies], whenever asked. *)
Definition provider_answers (env : Env) (companies : list (string * string)) : Prop :=
  forall h symbol, In symbol (List.map fst companies) ->
                   exists info, yf_info env h symbol = Ret info.

(** The provider raises for every symbol of [companies], whenever asked. *)
Definition provider_raises (env : Env) (companies : list (string * string)) : Prop :=
  forall h symbol, In symbol (List.map fst companies) ->
                   exists e, yf_info env h symbol = Raise e.

(** The server accepts every upsert, from [cursor()] to [commit()]. *)
Definition upserts_accepted (env : Env) : Prop :=
  (forall h, cursor_fault env h = None) /\
  (forall h v, mysql_fault env h (InsertOnDuplicateKeyUpdate v) = None) /\
  (forall h, commit_fault env h = None).

(** The server answers on the connection whenever [is_connected()] asks. *)
Definition connection_kept (env : Env) : Prop :=
  forall h, mysql_ping env h = true.

(** How [connect_db], [create_table] and [get_company_symbols] leave the
    state [s]: the call returns, the provider is not asked, there is no
    pause, no upsert and no close, and the rows of both tables stay. *)
Definition setup_frame {A} (r : result A * State) (s : State) : Prop :=
  (exists a, fst r = Ret a) /\
  tickers (trace (snd r)) = tickers (trace s) /\
  sleeps (trace (snd r)) = sleeps (trace s) /\
  upsert_keys (trace (snd r)) = upsert_keys (trace s) /\
  List.filter is_close (trace (snd r)) = List.filter is_close (trace s) /\
  information_rows (snd r) = information_rows s /\
  source_table (snd r) = source_table s.

End Keeps.
Export Keeps.

Module MoreRuns.

Definition listed_companies : list (string * string) :=
  [("TCS.NS", "Tata Consultancy"); ("NEWCO.NS", "New Co")].

Definition unlisted_companies : list (string * string) :=
  [("BADSYM.NS", "Bad Co"); ("GONE.BO", "Gone Ltd")].

(** A dictionary without the key "market_cap". *)
Definition partial_data : gmap string value :=
  <["symbol" := VStr "TCS.NS"]> (<["revenue" := VInt 1]> ∅).

(** The server refuses the connection. *)
Definition env_unreachable : Env :=
  {| mysql_connect := fun _ => Some "Can't connect to MySQL server";
     mysql_ping := fun _ => true;
     mysql_fault := fun _ _ => None;
     cursor_fault := fun _ => None;
     commit_fault := fun _ => None;
     collation := Scenario.case_insensitive;
     current_timestamp := Scenario.clock;
     yf_info := Scenario.provider;
     sleep_fault := fun _ _ => None |}.

(** The server hands out a connection that does not answer. *)
Definition env_dead_connection : Env :=
  {| mysql_connect := fun _ => None;
     mysql_ping := fun _ => false;
     mysql_fault := fun _ _ => None;
     cursor_fault := fun _ => None;
     commit_fault := fun _ => None;
     collation := Scenario.case_insensitive;
     current_timestamp := Scenario.clock;
     yf_info := Scenario.provider;
     sleep_fault := fun _ _ => None |}.

(** The server rejects every upsert. *)
Definition env_read_only : Env :=
  {| mysql_connect := fun _ => None;
     mysql_ping := fun _ => true;
     mysql_fault := fun _ q =>
       match q with
       | InsertOnDuplicateKeyUpdate _ => Some "INSERT command denied to user"
       | _ => None
       end;
     cursor_fault := fun _ => None;
     commit_fault := fun _ => None;
     collation := Scenario.case_insensitive;
     current_timestamp := Scenario.clock;
     yf_info := Scenario.provider;
     sleep_fault := fun _ _ => None |}.

(** The connection gives no cursor any more. *)
Definition env_no_cursor : Env :=
  {| mysql_connect := fun _ => None;
     mysql_ping := fun _ => true;
     mysql_fault := fun _ _ => None;
     cursor_fault := fun _ => Some "MySQL Connection not available.";
     commit_fault := fun _ => None;
     collation := Scenario.case_insensitive;
     current_timestamp := Scenario.clock;
     yf_info := Scenario.provider;
     sleep_fault := fun _ _ => None |}.

(** The server accepts every statement and fails every commit. *)
Definition env_commit_fails : Env :=
  {| mysql_connect := fun _ => None;
     mysql_ping := fun _ => true;
     mysql_fault := fun _ _ => None;
     cursor_fault := fun _ => None;
     commit_fault := fun _ => Some "Lost connection to MySQL server during query";
     collation := Scenario.case_insensitive;
     current_timestamp := Scenario.clock;
     yf_info := Scenario.provider;
     sleep_fault := fun _ _ => None |}.

End MoreRuns.

(** ** The upsert statement on the table *)

Section SqlFacts.

Variables (coll : string -> string -> bool) (now : Z) (v : Values).

Lemma same_key_refl (a : value) : same_key coll a a = true.
Proof. unfold same_key. now rewrite bool_decide_eq_true_2. Qed.

Lemma on_duplicate_key_update_symbol (r : Row) :
  symbol (on_duplicate_key_update now v r) = symbol r.
Proof. unfold on_duplicate_key_update. destruct (same_data v r); reflexivity. Qed.

Lemma on_duplicate_key_update_created_at (r : Row) :
  created_at (on_duplicate_key_update now v r) = created_at r.
Proof. unfold on_duplicate_key_update. destruct (same_data v r); reflexivity. Qed.

Lemma on_duplicate_key_update_identity (r : Row) :
  row_identity (on_duplicate_key_update now v r) = row_identity r.
Proof. unfold on_duplicate_key_update. destruct (same_data v r); reflexivity. Qed.

Lemma same_data_true (r : Row) :
  same_data v r = true ->
  revenue r = v_revenue v /\ market_cap r = v_market_cap v /\
  industry r = v_industry v /\ sector r = v_sector v.
Proof.
  unfold same_data. rewrite !andb_true_iff, !bool_decide_eq_true. tauto.
Qed.

Lemma on_duplicate_key_update_data (r : Row) :
  let r' := on_duplicate_key_update now v r in
  revenue r' = v_revenue v /\ market_cap r' = v_market_cap v /\
  industry r' = v_industry v /\ sector r' = v_sector v.
Proof.
  unfold on_duplicate_key_update. destruct (same_data v r) eqn:E; simpl.
  - apply same_data_true, E.
  - repeat split.
Qed.

Lemma same_data_after_update (r : Row) :
  same_data v (on_duplicate_key_update now v r) = true.
Proof.
  destruct (on_duplicate_key_update_data r) as (H1 & H2 & H3 & H4).
  unfold same_data. rewrite H1, H2, H3, H4.
  rewrite !bool_decide_eq_true_2; reflexivity.
Qed.

Lemma same_data_new_row (t : Table) : same_data v (new_row now v t) = true.
Proof. unfold same_data. simpl. rewrite !bool_decide_eq_true_2; reflexivity. Qed.

Lemma on_duplicate_key_update_fixed (now' : Z) (r : Row) :
  same_data v r = true -> on_duplicate_key_update now' v r = r.
Proof. unfold on_duplicate_key_update. now intros ->. Qed.

(** The rows the statement rewrites keep their key, so a test on the key
    sees the same rows before and after. *)
Lemma filter_update_by_symbol (P : Row -> bool) (k : value) (l : list Row) :
  (forall r r', symbol r = symbol r' -> P r = P r') ->
  List.filter P
    (List.map (fun r => if has_symbol coll k r
                        then on_duplicate_key_update now v r else r) l)
  = List.map (fun r => if has_symbol coll k r
                       then on_duplicate_key_update now v r else r)
      (List.filter P l).
Proof.
  intros HP. induction l as [|r l IH]; simpl; [reflexivity|].
  assert (Hr : P (if has_symbol coll k r then on_duplicate_key_update now v r else r)
               = P r).
  { apply HP. destruct (has_symbol coll k r); [|reflexivity].
    apply on_duplicate_key_update_symbol. }
  rewrite Hr. destruct (P r); simpl; now rewrite IH.
Qed.

Lemma has_symbol_by_symbol (k : value) (r r' : Row) :
  symbol r = symbol r' -> has_symbol coll k r = has_symbol coll k r'.
Proof. unfold has_symbol. now intros ->. Qed.

Lemma filter_update_matching (k : value) (l : list Row) :
  List.filter (has_symbol coll k)
    (List.map (fun r => if has_symbol coll k r
                        then on_duplicate_key_update now v r else r) l)
  = List.map (on_duplicate_key_update now v) (List.filter (has_symbol coll k) l).
Proof.
  rewrite filter_update_by_symbol by apply has_symbol_by_symbol.
  apply List.map_ext_in. intros r Hin. apply List.filter_In in Hin as [_ ->].
  reflexivity.
Qed.

Lemma existsb_filter_nil (k : value) (l : list Row) :
  existsb (has_symbol coll k) l = false <-> List.filter (has_symbol coll k) l = [].
Proof.
  induction l as [|r l IH]; simpl; [tauto|].
  destruct (has_symbol coll k r); simpl; [split; discriminate | exact IH].
Qed.

Lemma new_row_has_symbol (t : Table) :
  has_symbol coll (v_symbol v) (new_row now v t) = true.
Proof. unfold has_symbol. simpl. apply same_key_refl. Qed.

(** A free key: the statement appends the new row. *)
Lemma rows_of_insert_free (t : Table) :
  rows_of coll (v_symbol v) t = [] ->
  rows_of coll (v_symbol v) (insert_on_duplicate_key_update coll now v t)
  = [new_row now v t].
Proof.
  intros Hfree. unfold insert_on_duplicate_key_update, rows_of in *.
  apply existsb_filter_nil in Hfree as Hex. rewrite Hex. simpl.
  rewrite List.filter_app, Hfree. simpl. now rewrite new_row_has_symbol.
Qed.

(** A taken key: the statement rewrites the row that holds it. *)
Lemma rows_of_insert_taken (t : Table) (r0 : Row) :
  rows_of coll (v_symbol v) t = [r0] ->
  rows_of coll (v_symbol v) (insert_on_duplicate_key_update coll now v t)
  = [on_duplicate_key_update now v r0].
Proof.
  intros Htaken. unfold insert_on_duplicate_key_update, rows_of in *.
  destruct (existsb (has_symbol coll (v_symbol v)) (rows t)) eqn:Hex.
  - simpl. rewrite filter_update_matching, Htaken. reflexivity.
  - apply existsb_filter_nil in Hex. congruence.
Qed.

(** Rows the server does not find under the key are not touched: a test
    on the key that fails for every row holding the key of the statement
    selects the same rows before and after. *)
Lemma insert_keeps_others (P : Row -> bool) (t : Table) :
  (forall r r', symbol r = symbol r' -> P r = P r') ->
  (forall r, has_symbol coll (v_symbol v) r = true -> P r = false) ->
  List.filter P (rows (insert_on_duplicate_key_update coll now v t))
  = List.filter P (rows t).
Proof.
  intros HP Hkey. unfold insert_on_duplicate_key_update.
  destruct (existsb (has_symbol coll (v_symbol v)) (rows t)); simpl.
  - rewrite filter_update_by_symbol by exact HP.
    rewrite <- (List.map_id (List.filter P (rows t))) at 2.
    apply List.map_ext_in. intros r Hin. apply List.filter_In in Hin as [_ Hr].
    destruct (has_symbol coll (v_symbol v) r) eqn:E; [|reflexivity].
    rewrite (Hkey r E) in Hr. discriminate.
  - rewrite List.filter_app. simpl.
    rewrite (Hkey _ (new_row_has_symbol t)). apply app_nil_r.
Qed.

(** The statement keeps the symbols distinct. *)
Lemma insert_keeps_unique (t : Table) :
  unique_symbols t -> unique_symbols (insert_on_duplicate_key_update coll now v t).
Proof.
  unfold unique_symbols, insert_on_duplicate_key_update.
  destruct (existsb (has_symbol coll (v_symbol v)) (rows t)) eqn:Hex; simpl; intros Hu.
  - rewrite List.map_map.
    erewrite List.map_ext; [exact Hu|].
    intros r. simpl. destruct (has_symbol coll (v_symbol v) r); [|reflexivity].
    apply on_duplicate_key_update_symbol.
  - rewrite List.map_app. simpl.
    apply NoDup_app. split; [exact Hu|]. split.
    + intros k Hin Hin'. apply list_elem_of_In in Hin, Hin'.
      destruct Hin' as [<-|[]].
      apply List.in_map_iff in Hin as (r & Hr & Hin).
      assert (existsb (has_symbol coll (v_symbol v)) (rows t) = true); [|congruence].
      apply existsb_exists. exists r. split; [exact Hin|].
      unfold has_symbol. rewrite Hr. apply same_key_refl.
    + apply NoDup_singleton.
Qed.

(** The statement never removes or reorders rows and never reassigns an
    [id], a key or a creation time: old rows keep their place, a new row
    goes to the end. *)
Lemma insert_keeps_identities (t : Table) :
  List.map row_identity (rows t)
  `prefix_of`
  List.map row_identity (rows (insert_on_duplicate_key_update coll now v t)).
Proof.
  unfold insert_on_duplicate_key_update.
  destruct (existsb (has_symbol coll (v_symbol v)) (rows t)); simpl.
  - rewrite List.map_map. erewrite List.map_ext; [reflexivity|].
    intros r. simpl. destruct (has_symbol coll (v_symbol v) r); [|reflexivity].
    symmetry. apply on_duplicate_key_update_identity.
  - rewrite List.map_app. now apply prefix_app_r.
Qed.

(** A key that is there stays there, and after the statement its own key
    is there. *)
Lemma insert_keeps_present (t : Table) (k : value) :
  List.filter (has_symbol coll k) (rows t) <> [] ->
  List.filter (has_symbol coll k)
    (rows (insert_on_duplicate_key_update coll now v t)) <> [].
Proof.
  intros Hk. unfold insert_on_duplicate_key_update.
  destruct (existsb (has_symbol coll (v_symbol v)) (rows t)); simpl.
  - rewrite filter_update_by_symbol by apply has_symbol_by_symbol.
    destruct (List.filter (has_symbol coll k) (rows t)); [contradiction|discriminate].
  - rewrite List.filter_app.
    destruct (List.filter (has_symbol coll k) (rows t)); [contradiction|discriminate].
Qed.

Lemma insert_key_present (t : Table) :
  rows_of coll (v_symbol v) (insert_on_duplicate_key_update coll now v t) <> [].
Proof.
  destruct (rows_of coll (v_symbol v) t) as [|r0 l] eqn:Hrows.
  - rewrite rows_of_insert_free by exact Hrows. discriminate.
  - apply insert_keeps_present. unfold rows_of in Hrows. rewrite Hrows. discriminate.
Qed.

End SqlFacts.

(** Sending the same values again changes no row, not even
    [updated_at]. *)
Lemma insert_twice (coll : string -> string -> bool) (now now' : Z) (v : Values) (t : Table) :
  rows (insert_on_duplicate_key_update coll now v
          (insert_on_duplicate_key_update coll now' v t))
  = rows (insert_on_duplicate_key_update coll now' v t).
Proof.
  unfold insert_on_duplicate_key_update at 1.
  assert (Hex : existsb (has_symbol coll (v_symbol v))
                  (rows (insert_on_duplicate_key_update coll now' v t)) = true).
  { destruct (existsb _ (rows (insert_on_duplicate_key_update coll now' v t))) eqn:Hex;
      [reflexivity|].
    apply existsb_filter_nil in Hex. now apply insert_key_present in Hex. }
  rewrite Hex. simpl.
  rewrite <- (List.map_id (rows (insert_on_duplicate_key_update coll now' v t))) at 2.
  apply List.map_ext_in. intros r Hin.
  destruct (has_symbol coll (v_symbol v) r) eqn:Hr; [|reflexivity].
  apply on_duplicate_key_update_fixed.
  unfold insert_on_duplicate_key_update in Hin.
  destruct (existsb (has_symbol coll (v_symbol v)) (rows t)) eqn:Hex'; simpl in Hin.
  - apply List.in_map_iff in Hin as (r0 & <- & Hin).
    destruct (has_symbol coll (v_symbol v) r0) eqn:Hr0.
    + apply same_data_after_update.
    + congruence.
  - apply List.in_app_iff in Hin as [Hin|[<-|[]]].
    + assert (existsb (has_symbol coll (v_symbol v)) (rows t) = true); [|congruence].
      apply existsb_exists. eauto.
    + apply same_data_new_row.
Qed.

(** ** Running the methods *)

Ltac unfold_comp :=
  cbv beta iota zeta
      delta [bind try_except get modify emit print ret raise commit
             connection_cursor] in *.

Lemma isinstance_Exception_any (e : exn) : isinstance_Exception e = true.
Proof. destruct e; reflexivity. Qed.

Lemma fetched_data_lookup (symbol : string) (info : gmap string value) :
  fetched_data symbol info !! "symbol" = Some (VStr symbol) /\
  fetched_data symbol info !! "revenue" = Some (dict_get info "totalRevenue") /\
  fetched_data symbol info !! "market_cap" = Some (dict_get info "marketCap") /\
  fetched_data symbol info !! "industry" = Some (dict_get info "industry") /\
  fetched_data symbol info !! "sector" = Some (dict_get info "sector").
Proof. unfold fetched_data. repeat split; by simplify_map_eq. Qed.

Lemma fetched_data_truthy (symbol : string) (info : gmap string value) :
  truthy_dict (Some (fetched_data symbol info)) = true.
Proof.
  simpl. apply bool_decide_eq_true. unfold fetched_data. apply insert_non_empty.
Qed.

Section MethodFacts.

Variable env : Env.

(** [fetch_company_data] asks the provider once, with [symbol] itself,
    and turns whatever it raises into [None]. *)
Lemma fetch_company_data_eq (symbol : string) (s : State) :
  fetch_company_data env symbol s =
  match yf_info env (trace s) symbol with
  | Ret info => (Ret (Some (fetched_data symbol info)), record_event (Ticker symbol) s)
  | Raise e => (Ret None, record_events [Ticker symbol; Stdout (FetchDataErrorMsg symbol e)] s)
  end.
Proof.
  unfold fetch_company_data, yf_Ticker_info. unfold_comp.
  destruct (yf_info env (trace s) symbol) as [info|e]; [reflexivity|].
  rewrite isinstance_Exception_any. reflexivity.
Qed.

Lemma connect_db_eq (s : State) :
  connect_db env s =
  match mysql_connect env (trace s) with
  | Some msg => (Ret (Some false),
                 record_events [Connect; Stdout (ConnectErrorMsg (MySQLError msg))] s)
  | None =>
      if mysql_ping env (trace s ++ [Connect])
      then (Ret (Some true),
            record_event (Stdout ConnectedMsg)
              (set_connection (Some {| closed := false |}) (record_event Connect s)))
      else (Ret None,
            set_connection (Some {| closed := false |}) (record_event Connect s))
  end.
Proof.
  unfold connect_db, mysql_connector_connect. unfold_comp.
  destruct (mysql_connect env (trace s)) as [msg|]; [reflexivity|].
  unfold is_connected. simpl.
  destruct (mysql_ping env (trace s ++ [Connect])); reflexivity.
Qed.

Lemma create_table_eq (s : State) :
  create_table env s =
  if not_connected env s then (Ret false, record_event (Stdout NotConnectedMsg) s)
  else match mysql_fault env (trace s) CreateTableIfNotExists with
       | Some msg =>
           (Ret false,
            record_events [Execute CreateTableIfNotExists;
                           Stdout (CreateTableErrorMsg (MySQLError msg))] s)
       | None =>
           let s1 := set_information_table
                       (Some (default empty_table (information_table s)))
                       (record_event (Execute CreateTableIfNotExists) s) in
           match commit_fault env (trace s1) with
           | Some msg =>
               (Ret false,
                record_events [Commit; Stdout (CreateTableErrorMsg (MySQLError msg))] s1)
           | None => (Ret true, record_events [Commit; Stdout TableCreatedMsg] s1)
           end
       end.
Proof.
  unfold create_table, execute_create_table. unfold_comp.
  destruct (not_connected env s); [reflexivity|].
  destruct (mysql_fault env (trace s) CreateTableIfNotExists); [reflexivity|].
  simpl. destruct (commit_fault env _); reflexivity.
Qed.

Lemma get_company_symbols_eq (s : State) :
  get_company_symbols env s =
  if not_connected env s then (Ret [], record_event (Stdout NotConnectedMsg) s)
  else match mysql_fault env (trace s) SelectSymbolName with
       | Some msg =>
           (Ret [],
            record_events [Execute SelectSymbolName;
                           Stdout (FetchSymbolsErrorMsg (MySQLError msg))] s)
       | None =>
           (Ret (source_table s),
            record_events [Execute SelectSymbolName;
                           Stdout (FetchedMsg (length (source_table s)))] s)
       end.
Proof.
  unfold get_company_symbols, execute_select. unfold_comp.
  destruct (not_connected env s); [reflexivity|].
  destruct (mysql_fault env (trace s) SelectSymbolName); reflexivity.
Qed.

(** [insert_company_data] on a dictionary that has the five keys. *)
Lemma insert_company_data_eq (data : gmap string value) (s : State) :
  is_Some (data !! "symbol") -> is_Some (data !! "revenue") ->
  is_Some (data !! "market_cap") -> is_Some (data !! "industry") ->
  is_Some (data !! "sector") ->
  let v := values_of data in
  let q := InsertOnDuplicateKeyUpdate v in
  let failed msg :=
    (Ret false,
     record_events [Execute q; Stdout (InsertErrorMsg (v_symbol v) (MySQLError msg))] s) in
  insert_company_data env data s =
  if not_connected env s then (Ret false, record_event (Stdout NotConnectedMsg) s)
  else match cursor_fault env (trace s) with
       | Some msg =>
           (Ret false,
            record_event (Stdout (InsertErrorMsg (v_symbol v) (MySQLError msg))) s)
       | None =>
       match mysql_fault env (trace s) q with
       | Some msg => failed msg
       | None =>
           match information_table s with
           | None => failed "Table doesn't exist"
           | Some t =>
               if bool_decide (v_symbol v = VNone)
               then failed "Column 'symbol' cannot be null"
               else
                 let s1 := set_information_table
                             (Some (insert_on_duplicate_key_update (collation env)
                                      (current_timestamp env (trace s)) v t))
                             (record_event (Execute q) s) in
                 match commit_fault env (trace s1) with
                 | Some msg =>
                     (Ret false,
                      record_events
                        [Commit; Stdout (InsertErrorMsg (v_symbol v) (MySQLError msg))] s1)
                 | None => (Ret true, record_event Commit s1)
                 end
           end
       end
       end.
Proof.
  intros [k Hk] [rv Hrv] [cp Hcp] [ind Hind] [sec Hsec]. simpl.
  unfold insert_company_data, execute_insert, getitem, values_of, dict_get.
  rewrite Hk, Hrv, Hcp, Hind, Hsec. unfold_comp. simpl.
  destruct (not_connected env s); [reflexivity|].
  destruct (cursor_fault env (trace s)); [reflexivity|].
  destruct (mysql_fault env (trace s) _); [reflexivity|].
  destruct (information_table s); [|reflexivity].
  destruct (bool_decide (k = VNone)); [reflexivity|].
  simpl. destruct (commit_fault env _); reflexivity.
Qed.

(** A missing key is a [KeyError], which [except Error] lets through. *)
Lemma insert_company_data_true (data : gmap string value) (s s' : State) :
  insert_company_data env data s = (Ret true, s') ->
  is_Some (data !! "symbol") /\ is_Some (data !! "revenue") /\
  is_Some (data !! "market_cap") /\ is_Some (data !! "industry") /\
  is_Some (data !! "sector").
Proof.
  unfold insert_company_data, getitem. unfold_comp.
  destruct (not_connected env s); [discriminate|].
  destruct (cursor_fault env (trace s));
    [simpl; destruct (data !! "symbol"); discriminate|].
  destruct (data !! "symbol"); simpl; [|discriminate].
  destruct (data !! "revenue"); simpl; [|discriminate].
  destruct (data !! "market_cap"); simpl; [|discriminate].
  destruct (data !! "industry"); simpl; [|discriminate].
  destruct (data !! "sector"); simpl; [|discriminate].
  intros _. repeat split; eexists; reflexivity.
Qed.

Lemma close_connection_eq (s : State) :
  close_connection env s =
  if not_connected env s then (Ret tt, s)
  else (Ret tt, record_event (Stdout ClosedMsg)
                  (set_connection (Some {| closed := true |})
                     (record_event Close s))).
Proof.
  unfold close_connection. unfold_comp. destruct (not_connected env s); reflexivity.
Qed.

End MethodFacts.

(** ** Traces only grow *)

Lemma trace_record_event (ev : Event) (s : State) :
  trace (record_event ev s) = trace s ++ [ev].
Proof. reflexivity. Qed.

Lemma trace_set_information_table (t : option Table) (s : State) :
  trace (set_information_table t s) = trace s.
Proof. reflexivity. Qed.

Lemma trace_set_connection (c : option Connection) (s : State) :
  trace (set_connection c s) = trace s.
Proof. reflexivity. Qed.

Lemma tickers_app (a b : list Event) : tickers (a ++ b) = tickers a ++ tickers b.
Proof. apply omap_app. Qed.

Lemma sleeps_app (a b : list Event) : sleeps (a ++ b) = sleeps a ++ sleeps b.
Proof. apply omap_app. Qed.

Lemma upsert_keys_app (a b : list Event) :
  upsert_keys (a ++ b) = upsert_keys a ++ upsert_keys b.
Proof. apply omap_app. Qed.

Lemma tickers_cons (ev : Event) (l : list Event) :
  tickers (ev :: l) = from_option (fun t => [t]) [] (ticker_of ev) ++ tickers l.
Proof. unfold tickers. simpl. destruct (ticker_of ev); reflexivity. Qed.

Lemma sleeps_cons (ev : Event) (l : list Event) :
  sleeps (ev :: l) = from_option (fun d => [d]) [] (sleep_of ev) ++ sleeps l.
Proof. unfold sleeps. simpl. destruct (sleep_of ev); reflexivity. Qed.

Lemma upsert_keys_cons (ev : Event) (l : list Event) :
  upsert_keys (ev :: l)
  = from_option (fun k => [k]) [] (upsert_key_of ev) ++ upsert_keys l.
Proof. unfold upsert_keys. simpl. destruct (upsert_key_of ev); reflexivity. Qed.

Lemma tickers_nil : tickers [] = [].
Proof. reflexivity. Qed.

Lemma sleeps_nil : sleeps [] = [].
Proof. reflexivity. Qed.

Lemma upsert_keys_nil : upsert_keys [] = [].
Proof. reflexivity. Qed.

Create Rewrite HintDb trace_db.
#[export] Hint Rewrite trace_record_event trace_set_information_table
  trace_set_connection tickers_app sleeps_app upsert_keys_app
  tickers_cons sleeps_cons upsert_keys_cons
  tickers_nil sleeps_nil upsert_keys_nil : trace_db.

Ltac trace_simpl :=
  cbn [record_events fst snd]; autorewrite with trace_db;
  cbn [from_option ticker_of sleep_of upsert_key_of app
       v_symbol connection source_table information_table
       record_event set_information_table set_connection fst snd];
  rewrite ?app_nil_r, <- ?app_assoc.

Lemma not_connected_same (env : Env) (s s' : State) :
  connection s' = connection s -> trace s' = trace s ->
  not_connected env s' = not_connected env s.
Proof. unfold not_connected. now intros -> ->. Qed.

Section LoopFacts.

Variables (env : Env) (delay : Q) (total : nat).

Lemma process_company_eq (idx : nat) (symbol name : string) (su fa : nat) (s : State) :
  let s0 := record_event (Stdout (ProcessingMsg idx total name symbol)) s in
  process_company env delay total idx (symbol, name) (su, fa) s =
  match yf_info env (trace s0) symbol with
  | Raise e =>
      pause env delay (su, S fa)
        (record_events [Ticker symbol; Stdout (FetchDataErrorMsg symbol e)] s0)
  | Ret info =>
      match insert_company_data env (fetched_data symbol info)
              (record_event (Ticker symbol) s0) with
      | (Ret true, s2) =>
          pause env delay (S su, fa) (record_event (Stdout (InsertedMsg symbol)) s2)
      | (Ret false, s2) => pause env delay (su, S fa) s2
      | (Raise e, s2) => (Raise e, s2)
      end
  end.
Proof.
  intros s0. unfold process_company.
  unfold bind at 1. unfold print at 1, emit at 1, modify at 1. fold s0.
  unfold bind at 1. rewrite fetch_company_data_eq.
  assert (Hpause : forall c st,
             (do _ <- time_sleep env delay; ret c)%comp st = pause env delay c st).
  { intros c st. unfold pause, time_sleep. unfold_comp.
    destruct (time_sleep_check delay); [reflexivity|].
    destruct (sleep_fault env (trace st) delay); reflexivity. }
  destruct (yf_info env (trace s0) symbol) as [info|e].
  - rewrite fetched_data_truthy. unfold bind at 1. unfold bind at 1.
    destruct (insert_company_data env _ _) as [[[|]|e] s2]; [| |reflexivity].
    + unfold bind at 1. unfold print at 1, emit at 1, modify at 1.
      unfold ret at 1. apply Hpause.
    + unfold ret at 1. apply Hpause.
  - unfold bind at 1. unfold ret at 1. cbn [record_events]. apply Hpause.
Qed.

(** What an upsert of a fetched dictionary leaves behind. *)
Lemma insert_fetched_data_frame (symbol : string) (info : gmap string value) (s : State) :
  exists (ok : bool) (s' : State) (ks : list value),
    insert_company_data env (fetched_data symbol info) s = (Ret ok, s') /\
    connection s' = connection s /\
    source_table s' = source_table s /\
    tickers (trace s') = tickers (trace s) /\
    sleeps (trace s') = sleeps (trace s) /\
    upsert_keys (trace s') = upsert_keys (trace s) ++ ks /\
    (ks = [] \/ ks = [VStr symbol]).
Proof.
  destruct (fetched_data_lookup symbol info) as (Hk & Hr & Hc & Hi & Hs).
  rewrite insert_company_data_eq by (eexists; eassumption).
  assert (Hsym : v_symbol (values_of (fetched_data symbol info)) = VStr symbol).
  { unfold values_of, dict_get. simpl. now rewrite Hk. }
  destruct (not_connected env s).
  { exists false, (record_event (Stdout NotConnectedMsg) s), [].
    trace_simpl. repeat split; auto. }
  destruct (cursor_fault env (trace s)).
  { eexists false, _, []. split; [reflexivity|].
    trace_simpl. repeat split; auto. }
  destruct (mysql_fault env (trace s) _).
  { eexists false, _, [VStr symbol]. split; [reflexivity|].
    trace_simpl. rewrite ?Hsym. repeat split; auto. }
  destruct (information_table s).
  2:{ eexists false, _, [VStr symbol]. split; [reflexivity|].
      trace_simpl. rewrite ?Hsym. repeat split; auto. }
  rewrite (bool_decide_eq_false_2 _) by (rewrite Hsym; discriminate).
  cbv zeta. destruct (commit_fault env _).
  { eexists false, _, [VStr symbol]. split; [reflexivity|].
    trace_simpl. rewrite ?Hsym. repeat split; auto. }
  eexists true, _, [VStr symbol]. split; [reflexivity|].
  trace_simpl. rewrite ?Hsym. repeat split; auto.
Qed.

Lemma pause_cases (c : nat * nat) (s : State) :
  (pause env delay c s = (Ret c, record_event (Sleep delay) s) /\
   time_sleep_check delay = None /\ sleep_fault env (trace s) delay = None) \/
  (exists e, pause env delay c s = (Raise e, s)).
Proof.
  unfold pause. destruct (time_sleep_check delay); [eauto|].
  destruct (sleep_fault env (trace s) delay); eauto.
Qed.

(** One iteration: the frame, whatever the outcome. *)
Lemma process_company_frame (idx : nat) (symbol name : string) (su fa : nat) (s : State) :
  let r := process_company env delay total idx (symbol, name) (su, fa) s in
  connection (snd r) = connection s /\
  source_table (snd r) = source_table s /\
  exists ks, upsert_keys (trace (snd r)) = upsert_keys (trace s) ++ ks /\
             (ks = [] \/ ks = [VStr symbol]).
Proof.
  intros r. subst r. rewrite process_company_eq.
  destruct (yf_info env _ symbol) as [info|e].
  - destruct (insert_fetched_data_frame symbol info
                (record_event (Ticker symbol)
                   (record_event (Stdout (ProcessingMsg idx total name symbol)) s)))
      as (ok & s2 & ks & -> & Hc & Hsrc & _ & _ & Hu & Hks).
    revert Hu. trace_simpl. intros Hu.
    destruct ok;
      match goal with
      | |- context [pause env delay ?c ?st] =>
          destruct (pause_cases c st) as [(-> & _)|(e & ->)]
      end; trace_simpl;
        (split; [exact Hc|]); (split; [exact Hsrc|]);
        exists ks; rewrite Hu; trace_simpl; auto.
  - match goal with
    | |- context [pause env delay ?c ?st] =>
        destruct (pause_cases c st) as [(-> & _)|(e' & ->)]
    end; trace_simpl; repeat split; exists []; trace_simpl; auto.
Qed.

(** An iteration asks the provider once, whatever happens next. *)
Lemma process_company_tickers (idx : nat) (symbol name : string) (su fa : nat) (s : State) :
  tickers (trace (snd (process_company env delay total idx (symbol, name) (su, fa) s)))
  = tickers (trace s) ++ [symbol].
Proof.
  rewrite process_company_eq.
  destruct (yf_info env _ symbol) as [info|e].
  - destruct (insert_fetched_data_frame symbol info
                (record_event (Ticker symbol)
                   (record_event (Stdout (ProcessingMsg idx total name symbol)) s)))
      as (ok & s2 & ks & -> & _ & _ & Ht & _).
    revert Ht. trace_simpl. intros Ht.
    destruct ok;
      match goal with
      | |- context [pause env delay ?c ?st] =>
          destruct (pause_cases c st) as [(-> & _)|(e & ->)]
      end; trace_simpl; rewrite Ht; reflexivity.
  - match goal with
    | |- context [pause env delay ?c ?st] =>
        destruct (pause_cases c st) as [(-> & _)|(e' & ->)]
    end; trace_simpl; reflexivity.
Qed.

(** An iteration that returns has raised exactly one counter. *)
Lemma process_company_counters (idx : nat) (symbol name : string)
    (su fa : nat) (s s' : State) (c : nat * nat) :
  process_company env delay total idx (symbol, name) (su, fa) s = (Ret c, s') ->
  c = (S su, fa) \/ c = (su, S fa).
Proof.
  rewrite process_company_eq.
  destruct (yf_info env _ symbol) as [info|e].
  - destruct (insert_company_data env _ _) as [[[|]|e] s2]; [| |discriminate];
      match goal with
      | |- context [pause env delay ?c0 ?st] =>
          destruct (pause_cases c0 st) as [(-> & _)|(e & ->)]
      end; intros [= <- _] || discriminate; auto.
  - match goal with
    | |- context [pause env delay ?c0 ?st] =>
        destruct (pause_cases c0 st) as [(-> & _)|(e' & ->)]
    end; [intros [= <- _]; auto|discriminate].
Qed.

(** One iteration with a pause that [time.sleep] accepts: it returns,
    exactly one counter went up by one, the provider was asked for
    [symbol], and the last thing done was the pause. *)
Lemma process_company_returns (idx : nat) (symbol name : string) (su fa : nat) (s : State) :
  sleep_accepted env delay ->
  exists (c : nat * nat) (s1 : State),
    process_company env delay total idx (symbol, name) (su, fa) s
    = (Ret c, record_event (Sleep delay) s1) /\
    (c = (S su, fa) \/ c = (su, S fa)) /\
    tickers (trace s1) = tickers (trace s) ++ [symbol] /\
    sleeps (trace s1) = sleeps (trace s).
Proof.
  intros [Hcheck Hos]. rewrite process_company_eq. unfold pause. rewrite Hcheck.
  destruct (yf_info env _ symbol) as [info|e].
  - destruct (insert_fetched_data_frame symbol info
                (record_event (Ticker symbol)
                   (record_event (Stdout (ProcessingMsg idx total name symbol)) s)))
      as (ok & s2 & ks & -> & _ & _ & Ht & Hs & _ & _).
    revert Ht Hs. trace_simpl. intros Ht Hs.
    destruct ok; rewrite Hos; eexists _, _; (split; [reflexivity|]); trace_simpl;
      rewrite Ht, Hs; auto.
  - rewrite Hos. eexists _, _. split; [reflexivity|]. trace_simpl. auto.
Qed.

(** An argument that [time.sleep] rejects ends the iteration with the
    exception of [time.sleep], after the fetch and the upsert and with no
    pause. *)
Lemma process_company_rejected (e : exn) (idx : nat) (symbol name : string)
    (su fa : nat) (s : State) :
  time_sleep_check delay = Some e ->
  exists s',
    process_company env delay total idx (symbol, name) (su, fa) s = (Raise e, s') /\
    sleeps (trace s') = sleeps (trace s).
Proof.
  intros Hrej. rewrite process_company_eq. unfold pause. rewrite Hrej.
  destruct (yf_info env _ symbol) as [info|e'].
  - destruct (insert_fetched_data_frame symbol info
                (record_event (Ticker symbol)
                   (record_event (Stdout (ProcessingMsg idx total name symbol)) s)))
      as (ok & s2 & ks & -> & _ & _ & _ & Hs & _).
    revert Hs. trace_simpl. intros Hs.
    destruct ok; eexists; (split; [reflexivity|]); trace_simpl; exact Hs.
  - eexists. split; [reflexivity|]. trace_simpl. reflexivity.
Qed.

End LoopFacts.

Section WholeLoop.

Variables (env : Env) (delay : Q) (total : nat).

Lemma process_loop_cons (idx : nat) (company : string * string)
    (rest : list (string * string)) (c : nat * nat) (s : State) :
  process_loop env delay total idx (company :: rest) c s =
  match process_company env delay total idx company c s with
  | (Ret c', s') => process_loop env delay total (S idx) rest c' s'
  | (Raise e, s') => (Raise e, s')
  end.
Proof. reflexivity. Qed.

(** The loop leaves the connection object and the source table alone, and
    every upsert it attempts is keyed by a symbol of the list. *)
Lemma process_loop_frame (companies : list (string * string)) :
  forall (idx : nat) (c : nat * nat) (s : State),
    let r := process_loop env delay total idx companies c s in
    connection (snd r) = connection s /\
    source_table (snd r) = source_table s /\
    exists ks, upsert_keys (trace (snd r)) = upsert_keys (trace s) ++ ks /\
               Forall (from_companies companies) ks.
Proof.
  induction companies as [|[symbol name] rest IH]; intros idx [su fa] s r.
  - subst r. simpl. repeat split. exists []. now rewrite app_nil_r.
  - subst r. rewrite process_loop_cons.
    pose proof (process_company_frame env delay total idx symbol name su fa s)
      as (Hc & Hsrc & ks & Hu & Hks).
    destruct (process_company env delay total idx (symbol, name) (su, fa) s)
      as [[c'|e] s1]; simpl in Hc, Hsrc, Hu.
    + specialize (IH (S idx) c' s1) as (Hc' & Hsrc' & ks' & Hu' & Hks').
      split; [congruence|]. split; [congruence|].
      exists (ks ++ ks'). split.
      * rewrite Hu', Hu. now rewrite app_assoc.
      * apply Forall_app. split.
        -- destruct Hks as [->| ->]; [constructor|].
           constructor; [|constructor]. exists symbol. simpl. auto.
        -- eapply List.Forall_impl; [|exact Hks'].
           intros k (sym & -> & Hin). exists sym. simpl. auto.
    + simpl. repeat split; auto. exists ks. split; [exact Hu|].
      destruct Hks as [->| ->]; [constructor|].
      constructor; [|constructor]. exists symbol. simpl. auto.
Qed.

(** With a pause that [time.sleep] accepts the loop runs to its end. *)
Lemma process_loop_returns (companies : list (string * string)) :
  sleep_accepted env delay ->
  forall (idx su fa : nat) (s : State),
  exists (su' fa' : nat) (s' : State),
    process_loop env delay total idx companies (su, fa) s = (Ret (su', fa'), s') /\
    (su' + fa' = su + fa + length companies)%nat /\
    tickers (trace s') = tickers (trace s) ++ List.map fst companies /\
    sleeps (trace s') = sleeps (trace s) ++ repeat delay (length companies).
Proof.
  intros Hd. induction companies as [|[symbol name] rest IH]; intros idx su fa s.
  - exists su, fa, s. simpl. rewrite !app_nil_r. repeat split. lia.
  - rewrite process_loop_cons.
    destruct (process_company_returns env delay total idx symbol name su fa s Hd)
      as (c & s1 & -> & Hc & Ht & Hs).
    destruct c as [su1 fa1].
    destruct (IH (S idx) su1 fa1 (record_event (Sleep delay) s1))
      as (su' & fa' & s' & -> & Hsum & Ht' & Hs').
    exists su', fa', s'. split; [reflexivity|].
    revert Ht' Hs'. trace_simpl. rewrite Ht, Hs. trace_simpl. intros -> ->.
    simpl. repeat split.
    destruct Hc as [Hc|Hc]; inversion Hc; subst; lia.
Qed.

(** If the loop returns, every iteration has raised exactly one of the
    two counters. *)
Lemma process_loop_counters (companies : list (string * string)) :
  forall (idx su fa su' fa' : nat) (s s' : State),
    process_loop env delay total idx companies (su, fa) s = (Ret (su', fa'), s') ->
    (su' + fa' = su + fa + length companies)%nat.
Proof.
  induction companies as [|[symbol name] rest IH]; intros idx su fa su' fa' s s'.
  - simpl. unfold ret. intros [= <- <- <-]. simpl. lia.
  - rewrite process_loop_cons.
    destruct (process_company env delay total idx (symbol, name) (su, fa) s)
      as [[[su1 fa1]|e] s1] eqn:Hstep; [|discriminate].
    apply process_company_counters in Hstep.
    intros Hrest. apply IH in Hrest. simpl.
    destruct Hstep as [[= -> ->]|[= -> ->]]; lia.
Qed.

Lemma process_loop_tickers (companies : list (string * string)) :
  forall (idx : nat) (c c' : nat * nat) (s s' : State),
    process_loop env delay total idx companies c s = (Ret c', s') ->
    tickers (trace s') = tickers (trace s) ++ List.map fst companies.
Proof.
  induction companies as [|[symbol name] rest IH]; intros idx [su fa] c' s s'.
  - simpl. unfold ret. intros [= _ <-]. now rewrite app_nil_r.
  - rewrite process_loop_cons.
    pose proof (process_company_tickers env delay total idx symbol name su fa s) as Ht.
    destruct (process_company env delay total idx (symbol, name) (su, fa) s)
      as [[c1|e] s1]; [|discriminate].
    intros Hrest. apply IH in Hrest. rewrite Hrest. simpl in Ht. rewrite Ht.
    simpl. now rewrite <- app_assoc.
Qed.

(** [process_all_companies] once [connect_db], [create_table] and
    [get_company_symbols] have answered. *)
Lemma process_all_companies_eq (s s1 s2 s3 : State) (companies : list (string * string)) :
  connect_db env s = (Ret (Some true), s1) ->
  create_table env s1 = (Ret true, s2) ->
  get_company_symbols env s2 = (Ret companies, s3) ->
  total = length companies ->
  process_all_companies env delay s =
  match process_loop env delay total 1 companies (0%nat, 0%nat)
          (record_event (Stdout (StartingMsg total)) s3) with
  | (Ret (successful, failed), s4) =>
      close_connection env
        (record_events (summary_events total successful failed) s4)
  | (Raise e, s4) => (Raise e, s4)
  end.
Proof.
  intros Hconnect Hcreate Hget ->. unfold process_all_companies.
  unfold bind at 1. rewrite Hconnect. cbn [truthy_flag negb].
  unfold bind at 1. rewrite Hcreate. cbn [negb].
  unfold bind at 1. rewrite Hget.
  unfold bind at 1. unfold print at 1, emit at 1, modify at 1.
  unfold bind at 1.
  destruct (process_loop env delay _ 1 companies _ _) as [[[su fa]|e] s4];
    reflexivity.
Qed.

(** The two early returns. *)
Lemma process_all_companies_not_connected (s s1 : State) (flag : option bool) :
  connect_db env s = (Ret flag, s1) ->
  truthy_flag flag = false ->
  process_all_companies env delay s = (Ret tt, s1).
Proof.
  intros Hconnect Hflag. unfold process_all_companies.
  unfold bind at 1. rewrite Hconnect, Hflag. reflexivity.
Qed.

Lemma process_all_companies_not_created (s s1 s2 : State) :
  connect_db env s = (Ret (Some true), s1) ->
  create_table env s1 = (Ret false, s2) ->
  process_all_companies env delay s = (Ret tt, s2).
Proof.
  intros Hconnect Hcreate. unfold process_all_companies.
  unfold bind at 1. rewrite Hconnect. cbn [truthy_flag negb].
  unfold bind at 1. rewrite Hcreate. reflexivity.
Qed.

(** After a successful [connect_db] the extractor holds an open
    connection, and neither [create_table] nor [get_company_symbols]
    replaces it. *)
Lemma connect_db_true (s s1 : State) :
  connect_db env s = (Ret (Some true), s1) ->
  connection s1 = Some {| closed := false |} /\
  information_table s1 = information_table s /\
  source_table s1 = source_table s /\
  upsert_keys (trace s1) = upsert_keys (trace s).
Proof.
  rewrite connect_db_eq.
  destruct (mysql_connect env (trace s)) as [msg|]; [discriminate|].
  destruct (mysql_ping env _); [|discriminate].
  intros [= <-]. trace_simpl. auto.
Qed.

Lemma create_table_true (s s1 : State) :
  create_table env s = (Ret true, s1) ->
  connection s1 = connection s /\
  information_rows s1 = information_rows s /\
  source_table s1 = source_table s /\
  upsert_keys (trace s1) = upsert_keys (trace s) /\
  exists t, information_table s1 = Some t.
Proof.
  rewrite create_table_eq.
  destruct (not_connected env s); [discriminate|].
  destruct (mysql_fault env (trace s) _); [discriminate|].
  cbv zeta. destruct (commit_fault env _); [discriminate|].
  intros [= <-]. unfold information_rows. trace_simpl.
  destruct (information_table s); simpl; eauto 6.
Qed.

Lemma get_company_symbols_frame (s s1 : State) (companies : list (string * string)) :
  get_company_symbols env s = (Ret companies, s1) ->
  connection s1 = connection s /\
  information_table s1 = information_table s /\
  upsert_keys (trace s1) = upsert_keys (trace s).
Proof.
  rewrite get_company_symbols_eq.
  destruct (not_connected env s); [intros [= <- <-]; trace_simpl; auto|].
  destruct (mysql_fault env (trace s) _); intros [= <- <-]; trace_simpl; auto.
Qed.

End WholeLoop.

Lemma trace_record_events (evs : list Event) :
  forall s, trace (record_events evs s) = trace s ++ evs.
Proof.
  induction evs as [|ev evs IH]; intros s; simpl.
  - now rewrite app_nil_r.
  - rewrite IH. simpl. now rewrite <- app_assoc.
Qed.

Lemma connection_record_events (evs : list Event) :
  forall s, connection (record_events evs s) = connection s.
Proof. induction evs as [|ev evs IH]; intros s; simpl; [|rewrite IH]; reflexivity. Qed.

Lemma information_table_record_events (evs : list Event) :
  forall s, information_table (record_events evs s) = information_table s.
Proof. induction evs as [|ev evs IH]; intros s; simpl; [|rewrite IH]; reflexivity. Qed.

Lemma information_rows_record_events (evs : list Event) :
  forall s, information_rows (record_events evs s) = information_rows s.
Proof. induction evs as [|ev evs IH]; intros s; simpl; [|rewrite IH]; reflexivity. Qed.

Lemma information_rows_record_event (ev : Event) (s : State) :
  information_rows (record_event ev s) = information_rows s.
Proof. reflexivity. Qed.

(** [close_connection] returns, leaves the extractor not connected, and
    adds [closing] to the trace. *)
Lemma close_connection_frame (env : Env) (s : State) :
  exists s', close_connection env s = (Ret tt, s') /\
             not_connected env s' = true /\
             information_table s' = information_table s /\
             source_table s' = source_table s /\
             trace s' = trace s ++ closing env s.
Proof.
  rewrite close_connection_eq. unfold closing.
  destruct (not_connected env s) eqn:Hc.
  - exists s. rewrite app_nil_r. auto.
  - eexists. split; [reflexivity|]. simpl. rewrite <- app_assoc. auto.
Qed.

(** The state in which the loop starts holds an open connection and has
    its table; the loop and the summary keep the connection object. *)
Lemma loop_start_ready (env : Env) (s s1 s2 s3 : State)
    (companies : list (string * string)) (n : nat) :
  connect_db env s = (Ret (Some true), s1) ->
  create_table env s1 = (Ret true, s2) ->
  get_company_symbols env s2 = (Ret companies, s3) ->
  connection (record_event (Stdout (StartingMsg n)) s3) = Some {| closed := false |} /\
  information_table (record_event (Stdout (StartingMsg n)) s3) = information_table s2 /\
  is_Some (information_table s2).
Proof.
  intros Hconnect Hcreate Hget.
  destruct (connect_db_true env s s1 Hconnect) as (Hn & _).
  destruct (create_table_true env s1 s2 Hcreate) as (Hc2 & _ & _ & _ & t & Ht).
  destruct (get_company_symbols_frame env s2 s3 companies Hget) as (Hc3 & Ht3 & _).
  split; [|split; [exact Ht3|rewrite Ht; eauto]].
  simpl. congruence.
Qed.

Lemma not_connected_open (env : Env) (s : State) :
  connection s = Some {| closed := false |} ->
  not_connected env s = negb (mysql_ping env (trace s)).
Proof. unfold not_connected, is_connected. now intros ->. Qed.

(** ** More on the methods *)

Lemma first_missing_some (data : gmap string value) (k : string) :
  first_missing data = Some k -> In k five_keys /\ data !! k = None.
Proof.
  intros H. apply List.find_some in H as [Hin Hk]. split; [exact Hin|].
  unfold missing in Hk. destruct (data !! k); [discriminate|reflexivity].
Qed.

Lemma first_missing_none (data : gmap string value) :
  first_missing data = None ->
  is_Some (data !! "symbol") /\ is_Some (data !! "revenue") /\
  is_Some (data !! "market_cap") /\ is_Some (data !! "industry") /\
  is_Some (data !! "sector").
Proof.
  intros H.
  assert (Hall : forall k, In k five_keys -> is_Some (data !! k)).
  { intros k Hin. pose proof (List.find_none _ _ H k Hin) as Hk.
    unfold missing in Hk. destruct (data !! k); [eauto|discriminate]. }
  repeat split; apply Hall; simpl; auto 6.
Qed.

Lemma first_missing_found (data : gmap string value) (key : string) :
  In key five_keys -> data !! key = None -> exists k, first_missing data = Some k.
Proof.
  intros Hin Hkey. destruct (first_missing data) as [k|] eqn:Hm; [eauto|].
  pose proof (List.find_none _ _ Hm key Hin) as Hk.
  unfold missing in Hk. rewrite Hkey in Hk. discriminate.
Qed.

Lemma fetched_values_symbol (symbol : string) (info : gmap string value) :
  v_symbol (values_of (fetched_data symbol info)) = VStr symbol.
Proof.
  destruct (fetched_data_lookup symbol info) as (Hk & _).
  unfold values_of, dict_get. simpl. now rewrite Hk.
Qed.

Ltac frame_simpl :=
  trace_simpl; rewrite ?List.filter_app; cbn [List.filter is_close];
  rewrite ?app_nil_r.

Ltac grown_trace :=
  eexists; split;
  [cbn [snd record_events]; autorewrite with trace_db;
   rewrite <- ?app_assoc; reflexivity
  |split; reflexivity].

Section MoreMethodFacts.

Variable env : Env.

(** Once [cursor()] has returned, a subscript that fails raises
    [KeyError] before anything is sent; [except Error] does not catch
    it. *)
Lemma insert_company_data_missing (data : gmap string value) (s : State) (k : string) :
  not_connected env s = false ->
  cursor_fault env (trace s) = None ->
  first_missing data = Some k ->
  insert_company_data env data s = (Raise (KeyError k), s).
Proof.
  intros Hc Hcur. unfold first_missing, five_keys, missing. simpl.
  unfold insert_company_data, getitem. unfold_comp. rewrite Hc, Hcur.
  destruct (data !! "symbol"); [|intros [= <-]; reflexivity].
  destruct (data !! "revenue"); [|intros [= <-]; reflexivity].
  destruct (data !! "market_cap"); [|intros [= <-]; reflexivity].
  destruct (data !! "industry"); [|intros [= <-]; reflexivity].
  destruct (data !! "sector"); [discriminate|intros [= <-]; reflexivity].
Qed.

(** When [cursor()] raises, the handler runs before any subscript of the
    [try] block: it prints [data['symbol']], or raises [KeyError] if the
    dictionary has no such key. *)
Lemma insert_company_data_no_cursor (data : gmap string value) (s : State) (msg : string) :
  not_connected env s = false ->
  cursor_fault env (trace s) = Some msg ->
  insert_company_data env data s =
  match data !! "symbol" with
  | Some sym => (Ret false, record_event (Stdout (InsertErrorMsg sym (MySQLError msg))) s)
  | None => (Raise (KeyError "symbol"), s)
  end.
Proof.
  intros Hc Hcur. unfold insert_company_data, getitem. unfold_comp.
  rewrite Hc, Hcur. simpl. destruct (data !! "symbol"); reflexivity.
Qed.

(** What [insert_company_data] does to the destination table: nothing
    unless the server accepted the statement; when it did, the result is
    [True] if [commit()] returned and [False] if it raised. *)
Lemma insert_company_data_table (data : gmap string value) (s : State) :
  let r := insert_company_data env data s in
  let q := InsertOnDuplicateKeyUpdate (values_of data) in
  connection (snd r) = connection s /\
  source_table (snd r) = source_table s /\
  ((not_connected env s = false /\
    first_missing data = None /\
    cursor_fault env (trace s) = None /\
    mysql_fault env (trace s) q = None /\
    (exists t, information_table s = Some t /\
               information_table (snd r)
               = Some (insert_on_duplicate_key_update (collation env)
                         (current_timestamp env (trace s)) (values_of data) t)) /\
    ((fst r = Ret true /\ commit_fault env (trace s ++ [Execute q]) = None) \/
     (fst r = Ret false /\
      exists msg, commit_fault env (trace s ++ [Execute q]) = Some msg))) \/
   (fst r <> Ret true /\ information_table (snd r) = information_table s)).
Proof.
  intros r q. subst r q. destruct (not_connected env s) eqn:Hc.
  { unfold insert_company_data. unfold_comp. rewrite Hc. simpl.
    repeat split. right. split; [discriminate|reflexivity]. }
  destruct (cursor_fault env (trace s)) as [msg|] eqn:Hcur.
  { rewrite (insert_company_data_no_cursor data s msg Hc Hcur).
    destruct (data !! "symbol"); simpl; repeat split; right;
      (split; [discriminate|reflexivity]). }
  destruct (first_missing data) as [k|] eqn:Hm.
  { rewrite (insert_company_data_missing data s k Hc Hcur Hm). simpl.
    repeat split. right. split; [discriminate|reflexivity]. }
  apply first_missing_none in Hm as (H1 & H2 & H3 & H4 & H5).
  rewrite insert_company_data_eq by assumption. rewrite Hc, Hcur.
  destruct (mysql_fault env (trace s) _) eqn:Hf.
  { simpl. repeat split. right. split; [discriminate|reflexivity]. }
  destruct (information_table s) as [t|] eqn:Ht.
  2:{ simpl. repeat split. right. split; [discriminate|now rewrite Ht]. }
  destruct (bool_decide _).
  { simpl. repeat split. right. split; [discriminate|now rewrite Ht]. }
  cbv zeta. simpl trace.
  destruct (commit_fault env _) eqn:Hcommit; simpl; repeat split; left;
    repeat split; eauto.
Qed.

Lemma connect_db_frame (s : State) : setup_frame (connect_db env s) s.
Proof.
  rewrite connect_db_eq. unfold setup_frame.
  destruct (mysql_connect env (trace s)) as [msg|];
    [|destruct (mysql_ping env _)];
    frame_simpl; repeat split; eauto.
Qed.

Lemma create_table_frame (s : State) : setup_frame (create_table env s) s.
Proof.
  rewrite create_table_eq. unfold setup_frame, information_rows.
  destruct (not_connected env s); [frame_simpl; repeat split; eauto|].
  destruct (mysql_fault env (trace s) _); [frame_simpl; repeat split; eauto|].
  cbv zeta. destruct (commit_fault env _); frame_simpl; repeat split; eauto;
    destruct (information_table s); reflexivity.
Qed.

Lemma get_company_symbols_setup (s : State) :
  setup_frame (get_company_symbols env s) s /\
  information_table (snd (get_company_symbols env s)) = information_table s /\
  connection (snd (get_company_symbols env s)) = connection s /\
  (fst (get_company_symbols env s) = Ret [] \/
   fst (get_company_symbols env s) = Ret (source_table s)).
Proof.
  rewrite get_company_symbols_eq. unfold setup_frame, information_rows.
  destruct (not_connected env s); [frame_simpl; repeat split; eauto|].
  destruct (mysql_fault env (trace s) _); frame_simpl; repeat split; eauto.
Qed.

End MoreMethodFacts.

(** ** More on the loop *)

Section MoreLoopFacts.

Variables (env : Env) (delay : Q) (total : nat).

Lemma pause_frame (c : nat * nat) (s : State) :
  connection (snd (pause env delay c s)) = connection s /\
  information_table (snd (pause env delay c s)) = information_table s /\
  exists evs, trace (snd (pause env delay c s)) = trace s ++ evs /\
              forallb iteration_event evs = true /\
              List.filter is_close evs = [].
Proof.
  destruct (pause_cases env delay c s) as [(-> & _)|(e & ->)]; simpl; repeat split.
  - exists [Sleep delay]. repeat split.
  - exists []. rewrite app_nil_r. repeat split.
Qed.

(** The calls of an upsert of a fetched dictionary. *)
Lemma insert_fetched_data_events (symbol : string) (info : gmap string value) (s : State) :
  exists evs,
    trace (snd (insert_company_data env (fetched_data symbol info) s)) = trace s ++ evs /\
    forallb iteration_event evs = true /\
    List.filter is_close evs = [].
Proof.
  destruct (fetched_data_lookup symbol info) as (Hk & Hr & Hc & Hi & Hs).
  rewrite insert_company_data_eq by (eexists; eassumption).
  destruct (not_connected env s); [grown_trace|].
  destruct (cursor_fault env (trace s)); [grown_trace|].
  destruct (mysql_fault env (trace s) _); [grown_trace|].
  destruct (information_table s); [|grown_trace].
  destruct (bool_decide _); [grown_trace|].
  cbv zeta. destruct (commit_fault env _); grown_trace.
Qed.

(** One iteration makes only the calls of the loop body, and the only
    thing it can do to the destination table is one upsert keyed by its
    symbol. *)
Lemma process_company_effects (idx : nat) (symbol name : string) (su fa : nat) (s : State) :
  let r := process_company env delay total idx (symbol, name) (su, fa) s in
  (exists evs, trace (snd r) = trace s ++ evs /\
               forallb iteration_event evs = true /\
               List.filter is_close evs = []) /\
  (information_table (snd r) = information_table s \/
   exists now v t,
     v_symbol v = VStr symbol /\
     information_table s = Some t /\
     information_table (snd r)
     = Some (insert_on_duplicate_key_update (collation env) now v t)).
Proof.
  intros r. subst r. rewrite process_company_eq.
  set (s0 := record_event (Stdout (ProcessingMsg idx total name symbol)) s).
  destruct (yf_info env (trace s0) symbol) as [info|e].
  - set (s1 := record_event (Ticker symbol) s0).
    destruct (insert_fetched_data_events symbol info s1) as (evs & Htr & Hev & Hcl).
    pose proof (insert_company_data_table env (fetched_data symbol info) s1)
      as (_ & _ & Htab).
    assert (Htab' :
              information_table (snd (insert_company_data env (fetched_data symbol info) s1))
              = information_table s \/
              exists now v t,
                v_symbol v = VStr symbol /\ information_table s = Some t /\
                information_table
                  (snd (insert_company_data env (fetched_data symbol info) s1))
                = Some (insert_on_duplicate_key_update (collation env) now v t)).
    { destruct Htab as [(_ & _ & _ & _ & (t & Ht & Ht2) & _)|(_ & Hsame)];
        [|left; exact Hsame].
      right. exists (current_timestamp env (trace s1)),
               (values_of (fetched_data symbol info)), t.
      split; [apply fetched_values_symbol|]. split; assumption. }
    clear Htab.
    destruct (insert_company_data env (fetched_data symbol info) s1)
      as [[[|]|e] s2]; simpl in Htr, Htab'.
    + destruct (pause_frame (S su, fa) (record_event (Stdout (InsertedMsg symbol)) s2))
        as (_ & Ht & evs' & Htr' & Hev' & Hcl').
      split.
      * exists ([Stdout (ProcessingMsg idx total name symbol); Ticker symbol] ++ evs
                ++ [Stdout (InsertedMsg symbol)] ++ evs').
        rewrite Htr'. simpl trace. rewrite Htr. subst s1 s0. simpl trace.
        split; [now rewrite <- !app_assoc|].
        rewrite !forallb_app, !List.filter_app, Hev, Hev', Hcl, Hcl'. split; reflexivity.
      * rewrite Ht. exact Htab'.
    + destruct (pause_frame (su, S fa) s2) as (_ & Ht & evs' & Htr' & Hev' & Hcl').
      split.
      * exists ([Stdout (ProcessingMsg idx total name symbol); Ticker symbol] ++ evs ++ evs').
        rewrite Htr', Htr. subst s1 s0. simpl trace.
        split; [now rewrite <- !app_assoc|].
        rewrite !forallb_app, !List.filter_app, Hev, Hev', Hcl, Hcl'. split; reflexivity.
      * rewrite Ht. exact Htab'.
    + split; [|exact Htab'].
      exists ([Stdout (ProcessingMsg idx total name symbol); Ticker symbol] ++ evs).
      simpl snd. rewrite Htr. subst s1 s0. simpl trace.
      split; [now rewrite <- !app_assoc|].
      rewrite !forallb_app, !List.filter_app, Hev, Hcl. split; reflexivity.
  - destruct (pause_frame (su, S fa)
                (record_events [Ticker symbol; Stdout (FetchDataErrorMsg symbol e)] s0))
      as (_ & Ht & evs' & Htr' & Hev' & Hcl').
    split.
    + exists ([Stdout (ProcessingMsg idx total name symbol); Ticker symbol;
               Stdout (FetchDataErrorMsg symbol e)] ++ evs').
      rewrite Htr'. subst s0. simpl trace.
      split; [now rewrite <- !app_assoc|].
      rewrite !forallb_app, !List.filter_app, Hev', Hcl'. split; reflexivity.
    + left. rewrite Ht. reflexivity.
Qed.

(** The same for the whole loop: only calls of the loop body, and any
    property of the rows that every upsert keyed by a listed symbol keeps
    is kept by the loop. *)
Lemma process_loop_effects (Q : list Row -> Prop) (companies : list (string * string)) :
  (forall now v t, from_companies companies (v_symbol v) ->
                   Q (rows t) ->
                   Q (rows (insert_on_duplicate_key_update (collation env) now v t))) ->
  forall (idx : nat) (c : nat * nat) (s : State),
    let r := process_loop env delay total idx companies c s in
    (exists evs, trace (snd r) = trace s ++ evs /\
                 forallb iteration_event evs = true /\
                 List.filter is_close evs = []) /\
    (Q (information_rows s) -> Q (information_rows (snd r))).
Proof.
  induction companies as [|[symbol name] rest IH]; intros HQ idx [su fa] s r.
  - subst r. simpl. split; [|auto]. exists []. now rewrite app_nil_r.
  - subst r. rewrite process_loop_cons.
    pose proof (process_company_effects idx symbol name su fa s) as (Hev & Htab).
    assert (HQ' : forall now v t, from_companies rest (v_symbol v) ->
                    Q (rows t) ->
                    Q (rows (insert_on_duplicate_key_update (collation env) now v t))).
    { intros now v t (sym & Hv & Hin). apply HQ. exists sym. simpl. auto. }
    assert (Hstep : Q (information_rows s) ->
                    Q (information_rows
                         (snd (process_company env delay total idx (symbol, name) (su, fa) s)))).
    { intros Hq. unfold information_rows in *.
      destruct Htab as [-> | (now & v & t & Hv & Hs & ->)]; [exact Hq|].
      rewrite Hs in Hq. apply HQ; [|exact Hq]. exists symbol. simpl. auto. }
    destruct (process_company env delay total idx (symbol, name) (su, fa) s)
      as [[c'|e] s1]; simpl in Hev, Hstep; [|split; assumption].
    destruct (IH HQ' (S idx) c' s1) as ((evs' & Htr' & Hev' & Hcl') & Hq').
    destruct Hev as (evs & Htr & Hev & Hcl). split.
    + exists (evs ++ evs'). rewrite Htr', Htr.
      split; [now rewrite <- app_assoc|].
      rewrite forallb_app, List.filter_app, Hev, Hev', Hcl, Hcl'. split; reflexivity.
    + intros Hq. apply Hq', Hstep, Hq.
Qed.

End MoreLoopFacts.

(** ** More on the run *)

Section MoreRunFacts.

Variables (env : Env) (delay : Q).

(** [process_all_companies], call by call. *)
Lemma process_all_companies_cases (s : State) :
  process_all_companies env delay s =
  match connect_db env s with
  | (Raise e, s1) => (Raise e, s1)
  | (Ret flag, s1) =>
      if truthy_flag flag then
        match create_table env s1 with
        | (Raise e, s2) => (Raise e, s2)
        | (Ret false, s2) => (Ret tt, s2)
        | (Ret true, s2) =>
            match get_company_symbols env s2 with
            | (Raise e, s3) => (Raise e, s3)
            | (Ret companies, s3) =>
                match process_loop env delay (length companies) 1 companies (0, 0)%nat
                        (record_event (Stdout (StartingMsg (length companies))) s3) with
                | (Ret (successful, failed), s4) =>
                    close_connection env
                      (record_events
                         (summary_events (length companies) successful failed) s4)
                | (Raise e, s4) => (Raise e, s4)
                end
            end
        end
      else (Ret tt, s1)
  end.
Proof.
  unfold process_all_companies. unfold bind at 1.
  destruct (connect_db env s) as [[flag|e] s1]; [|reflexivity].
  destruct (truthy_flag flag); [|reflexivity]. cbn [negb].
  unfold bind at 1. destruct (create_table env s1) as [[[|]|e] s2]; try reflexivity.
  cbn [negb]. unfold bind at 1.
  destruct (get_company_symbols env s2) as [[companies|e] s3]; [|reflexivity].
  unfold bind at 1. unfold print at 1, emit at 1, modify at 1. unfold bind at 1.
  destruct (process_loop env delay _ 1 companies _ _) as [[[su fa]|e] s4]; reflexivity.
Qed.

(** Any property of the destination rows that every upsert keyed by a
    symbol of the source table keeps is kept by the whole run. *)
Lemma process_all_companies_rows (Q : list Row -> Prop) (s : State) :
  (forall now v t, from_companies (source_table s) (v_symbol v) ->
                   Q (rows t) ->
                   Q (rows (insert_on_duplicate_key_update (collation env) now v t))) ->
  Q (information_rows s) ->
  Q (information_rows (snd (process_all_companies env delay s))).
Proof.
  intros HQ Hq. rewrite process_all_companies_cases.
  pose proof (connect_db_frame env s) as (_ & _ & _ & _ & _ & Hr1 & Hs1).
  destruct (connect_db env s) as [[flag|e] s1]; simpl in Hr1, Hs1;
    [|simpl; now rewrite Hr1].
  destruct (truthy_flag flag); [|simpl; now rewrite Hr1].
  pose proof (create_table_frame env s1) as (_ & _ & _ & _ & _ & Hr2 & Hs2).
  destruct (create_table env s1) as [[[|]|e] s2]; simpl in Hr2, Hs2;
    try (simpl; now rewrite Hr2, Hr1).
  pose proof (get_company_symbols_setup env s2)
    as ((_ & _ & _ & _ & _ & Hr3 & Hs3) & _ & _ & Hlist).
  destruct (get_company_symbols env s2) as [[companies|e] s3]; simpl in Hr3, Hs3, Hlist;
    [|simpl; now rewrite Hr3, Hr2, Hr1].
  assert (HQ' : forall now v t, from_companies companies (v_symbol v) ->
                  Q (rows t) ->
                  Q (rows (insert_on_duplicate_key_update (collation env) now v t))).
  { intros now v t Hv. apply HQ.
    destruct Hlist as [[= ->]|[= ->]].
    - destruct Hv as (sym & _ & []).
    - now rewrite Hs2, Hs1 in Hv. }
  pose proof (process_loop_effects env delay (length companies) Q companies HQ' 1%nat
                (0, 0)%nat (record_event (Stdout (StartingMsg (length companies))) s3))
    as (_ & Hloop).
  rewrite information_rows_record_event, Hr3, Hr2, Hr1 in Hloop. specialize (Hloop Hq).
  destruct (process_loop env delay _ 1 companies _ _) as [[[su fa]|e] s4];
    simpl in Hloop; [|exact Hloop].
  destruct (close_connection_frame env
              (record_events (summary_events (length companies) su fa) s4))
    as (s5 & -> & _ & Ht5 & _).
  simpl. unfold information_rows in *. rewrite Ht5. exact Hloop.
Qed.

End MoreRunFacts.

(** ** The end of a run *)

(** On an open connection [close_connection] acts exactly when the server
    still answers. *)
Lemma closing_open (env : Env) (s : State) :
  connection s = Some {| closed := false |} ->
  closing env s
  = if mysql_ping env (trace s) then [Close; Stdout ClosedMsg] else [].
Proof.
  intros Hc. unfold closing. rewrite (not_connected_open env s Hc).
  destruct (mysql_ping env (trace s)); reflexivity.
Qed.

(** The connection object in which the loop ends, once the summary is
    printed, is the open one that [connect_db] stored. *)
Lemma summary_state_open (env : Env) (delay : Q) (s s1 s2 s3 : State)
    (companies : list (string * string)) (total : nat) (c : nat * nat) (evs : list Event) :
  connect_db env s = (Ret (Some true), s1) ->
  create_table env s1 = (Ret true, s2) ->
  get_company_symbols env s2 = (Ret companies, s3) ->
  connection
    (record_events evs
       (snd (process_loop env delay total 1 companies c
               (record_event (Stdout (StartingMsg total)) s3))))
  = Some {| closed := false |}.
Proof.
  intros Hconnect Hcreate Hget.
  destruct (loop_start_ready env s s1 s2 s3 companies total Hconnect Hcreate Hget)
    as (Hopen & _).
  destruct (process_loop_frame env delay total companies 1%nat c
              (record_event (Stdout (StartingMsg total)) s3)) as (Hc & _).
  rewrite connection_record_events, Hc. exact Hopen.
Qed.

(** * The upsert *)

(** C1 (as amended).  The server looks a key up with the collation of the
    [symbol] column.  A successful [insert_company_data] of a symbol for
    which it finds no row leaves exactly one row for it, holding that
    symbol and the four data fields, with [created_at] equal to
    [updated_at].  A successful upsert of a symbol for which it finds one
    row leaves one row for it: the same [id], stored symbol and
    [created_at], and the four data fields equal to the new values;
    [updated_at] becomes the time of the statement when one of the four
    fields changes and stays as it was when none does, so it never moves
    back while the clock does not. *)
Theorem insert_company_data_upsert
    (env : Env) (data : gmap string value) (s s' : State) (t : Table) (k : value) :
  insert_company_data env data s = (Ret true, s') ->
  information_table s = Some t ->
  data !! "symbol" = Some k ->
  let now := current_timestamp env (trace s) in
  exists t',
    information_table s' = Some t' /\
    (rows_of (collation env) k t = [] ->
     exists r, rows_of (collation env) k t' = [r] /\ symbol r = k /\
               carries data r /\ created_at r = updated_at r) /\
    (forall r0, rows_of (collation env) k t = [r0] ->
     exists r, rows_of (collation env) k t' = [r] /\ carries data r /\
               id r = id r0 /\ symbol r = symbol r0 /\
               created_at r = created_at r0 /\
               (same_data (values_of data) r0 = false -> updated_at r = now) /\
               (same_data (values_of data) r0 = true -> updated_at r = updated_at r0) /\
               (updated_at r0 <= now -> updated_at r0 <= updated_at r)).
Proof.
  intros Hins Ht Hk now.
  destruct (insert_company_data_true env data s s' Hins)
    as (Hsym & Hrev & Hcap & Hind & Hsec).
  rewrite insert_company_data_eq in Hins by assumption.
  destruct (not_connected env s); [discriminate|].
  destruct (cursor_fault env (trace s)); [discriminate|].
  destruct (mysql_fault env (trace s) _); [discriminate|].
  rewrite Ht in Hins.
  destruct (bool_decide _); [discriminate|].
  cbv zeta in Hins. destruct (commit_fault env _); [discriminate|].
  injection Hins as <-. fold now.
  set (v := values_of data).
  assert (Hv : v_symbol v = k) by (unfold v, values_of, dict_get; simpl; now rewrite Hk).
  assert (Hcarry : forall r,
             revenue r = v_revenue v /\ market_cap r = v_market_cap v /\
             industry r = v_industry v /\ sector r = v_sector v ->
             carries data r).
  { intros r (H1 & H2 & H3 & H4). unfold carries. rewrite H1, H2, H3, H4.
    unfold v, values_of, dict_get. simpl.
    destruct Hrev as [? ->], Hcap as [? ->], Hind as [? ->], Hsec as [? ->].
    repeat split. }
  eexists. split; [reflexivity|]. rewrite <- Hv. split.
  - intros Hfree. eexists. split; [apply rows_of_insert_free, Hfree|].
    split; [reflexivity|].
    split; [apply Hcarry; repeat split|reflexivity].
  - intros r0 Htaken. eexists. split; [apply rows_of_insert_taken, Htaken|].
    split; [apply Hcarry, on_duplicate_key_update_data|].
    unfold on_duplicate_key_update.
    destruct (same_data v r0); simpl; repeat split; intros; (congruence || lia).
Qed.

Lemma insert_company_data_upsert_witness :
  insert_company_data Scenario.env_ok Scenario.tcs_lower_data
    (Scenario.holding Scenario.old_tcs_row)
  = (Ret true,
     snd (insert_company_data Scenario.env_ok Scenario.tcs_lower_data
            (Scenario.holding Scenario.old_tcs_row))) /\
  Scenario.tcs_lower_data !! "symbol" = Some (VStr "tcs.ns") /\
  rows_of (collation Scenario.env_ok) (VStr "tcs.ns")
    {| rows := [Scenario.old_tcs_row]; auto_increment := 2 |}
  = [Scenario.old_tcs_row] /\
  exists t',
    information_table
      (snd (insert_company_data Scenario.env_ok Scenario.tcs_lower_data
              (Scenario.holding Scenario.old_tcs_row))) = Some t' /\
    exists r, rows_of (collation Scenario.env_ok) (VStr "tcs.ns") t' = [r] /\
              carries Scenario.tcs_lower_data r /\
              symbol r = VStr "TCS.NS" /\
              created_at r = 1600000000 /\
              updated_at r = 1700000000.
Proof.
  assert (H1 : insert_company_data Scenario.env_ok Scenario.tcs_lower_data
                 (Scenario.holding Scenario.old_tcs_row)
               = (Ret true,
                  snd (insert_company_data Scenario.env_ok Scenario.tcs_lower_data
                         (Scenario.holding Scenario.old_tcs_row))))
    by (vm_compute; reflexivity).
  assert (H3 : Scenario.tcs_lower_data !! "symbol" = Some (VStr "tcs.ns"))
    by (vm_compute; reflexivity).
  assert (H4 : rows_of (collation Scenario.env_ok) (VStr "tcs.ns")
                 {| rows := [Scenario.old_tcs_row]; auto_increment := 2 |}
               = [Scenario.old_tcs_row])
    by (vm_compute; reflexivity).
  split; [exact H1|]. split; [exact H3|]. split; [exact H4|].
  destruct (insert_company_data_upsert Scenario.env_ok Scenario.tcs_lower_data _ _
              {| rows := [Scenario.old_tcs_row]; auto_increment := 2 |}
              (VStr "tcs.ns") H1 eq_refl H3)
    as (t' & Ht' & _ & Htaken).
  exists t'. split; [exact Ht'|].
  destruct (Htaken Scenario.old_tcs_row H4)
    as (r & Hr & Hcarry & _ & Hsymbol & Hcreated & Hchanged & _).
  exists r. split; [exact Hr|]. split; [exact Hcarry|]. split; [exact Hsymbol|].
  split; [exact Hcreated|].
  apply Hchanged. vm_compute; reflexivity.
Defined.

(** C1 as stated fails: upserting the values a row already holds succeeds
    and leaves [updated_at] where it was, although the clock has moved. *)
Lemma upsert_same_values_keeps_updated_at :
  exists s' r,
    insert_company_data Scenario.env_ok Scenario.tcs_data
      (Scenario.holding Scenario.tcs_row) = (Ret true, s') /\
    rows_of (collation Scenario.env_ok) (VStr "TCS.NS")
      {| rows := [Scenario.tcs_row]; auto_increment := 2 |}
    = [Scenario.tcs_row] /\
    List.filter (has_symbol (collation Scenario.env_ok) (VStr "TCS.NS"))
      (information_rows s') = [r] /\
    updated_at Scenario.tcs_row
    < current_timestamp Scenario.env_ok (trace (Scenario.holding Scenario.tcs_row)) /\
    ~ (updated_at Scenario.tcs_row < updated_at r).
Proof.
  eexists _, _. split; [vm_compute; reflexivity|].
  split; [vm_compute; reflexivity|].
  split; [vm_compute; reflexivity|].
  split; [vm_compute; reflexivity|].
  vm_compute. intros H; discriminate H.
Qed.

(** * The run *)

(** C2.  After [connect_db] and [create_table] have succeeded and
    [get_company_symbols] has returned [companies], a run that completes
    has printed a summary whose counters are those of the loop, with
    successful + failed = total = the number of pairs, and has then closed
    the connection if it still answered; every iteration that returns
    raised exactly one of the two counters; and the run does complete
    when [time.sleep] accepts the delay. *)
Theorem process_all_companies_counters
    (env : Env) (delay : Q) (s s1 s2 s3 : State) (companies : list (string * string)) :
  connect_db env s = (Ret (Some true), s1) ->
  create_table env s1 = (Ret true, s2) ->
  get_company_symbols env s2 = (Ret companies, s3) ->
  let total := length companies in
  (forall s', process_all_companies env delay s = (Ret tt, s') ->
     exists successful failed s4,
       process_loop env delay total 1 companies (0, 0)%nat
         (record_event (Stdout (StartingMsg total)) s3)
       = (Ret (successful, failed), s4) /\
       (let printed := trace s4 ++ summary_events total successful failed in
        trace s' = printed ++ (if mysql_ping env printed
                               then [Close; Stdout ClosedMsg] else [])) /\
       (successful + failed)%nat = total) /\
  (forall idx symbol name su fa st c st',
     process_company env delay total idx (symbol, name) (su, fa) st = (Ret c, st') ->
     c = (S su, fa) \/ c = (su, S fa)) /\
  (sleep_accepted env delay ->
   exists s', process_all_companies env delay s = (Ret tt, s')).
Proof.
  intros Hconnect Hcreate Hget total.
  pose proof (process_all_companies_eq env delay total s s1 s2 s3 companies
                Hconnect Hcreate Hget eq_refl) as Heq.
  split; [|split].
  - intros s' Hrun. rewrite Heq in Hrun.
    pose proof (summary_state_open env delay s s1 s2 s3 companies total (0, 0)%nat)
      as Hopen.
    destruct (process_loop env delay total 1 companies (0, 0)%nat _)
      as [[[su fa]|e] s4] eqn:Hloop; [|discriminate].
    exists su, fa, s4. split; [reflexivity|].
    specialize (Hopen (summary_events total su fa) Hconnect Hcreate Hget).
    simpl snd in Hopen.
    destruct (close_connection_frame env
                (record_events (summary_events total su fa) s4))
      as (s5 & Hclose & _ & _ & _ & Htrace).
    rewrite Hclose in Hrun. injection Hrun as <-.
    split.
    + cbv zeta. rewrite Htrace, (closing_open env _ Hopen), trace_record_events.
      reflexivity.
    + apply process_loop_counters in Hloop. exact Hloop.
  - intros idx symbol name su fa st c st'. apply process_company_counters.
  - intros Hd. rewrite Heq.
    destruct (process_loop_returns env delay total companies Hd 1%nat 0%nat 0%nat
                (record_event (Stdout (StartingMsg total)) s3))
      as (su & fa & s4 & -> & _).
    destruct (close_connection_frame env
                (record_events (summary_events total su fa) s4))
      as (s5 & -> & _). eauto.
Qed.

(** The scenario of the specification: the provider answers for "TCS.NS"
    and raises for "BADSYM.NS".  The table ends with the single row of
    "TCS.NS" and the summary reads total 2, successful 1, failed 1. *)
Example tcs_and_badsym :
  let r := process_all_companies Scenario.env_ok 1
             (Scenario.fresh Scenario.two_companies None) in
  fst r = Ret tt /\
  List.map symbol (information_rows (snd r)) = [VStr "TCS.NS"] /\
  exists pre, trace (snd r) = pre ++ summary_events 2 1 1 ++ [Close; Stdout ClosedMsg].
Proof.
  intros r. split; [vm_compute; reflexivity|].
  split; [vm_compute; reflexivity|].
  exists (firstn 18 (trace (snd r))). vm_compute. reflexivity.
Qed.

Lemma process_all_companies_counters_witness :
  let s := Scenario.fresh Scenario.two_companies None in
  let s1 := snd (connect_db Scenario.env_ok s) in
  let s2 := snd (create_table Scenario.env_ok s1) in
  let s3 := snd (get_company_symbols Scenario.env_ok s2) in
  sleep_accepted Scenario.env_ok (1 # 2) /\
  exists s', process_all_companies Scenario.env_ok (1 # 2) s = (Ret tt, s') /\
    exists successful failed pre,
      trace s' = pre ++ summary_events 2 successful failed ++ [Close; Stdout ClosedMsg] /\
      (successful + failed = 2)%nat.
Proof.
  intros s s1 s2 s3.
  assert (Hconnect : connect_db Scenario.env_ok s = (Ret (Some true), s1))
    by (vm_compute; reflexivity).
  assert (Hcreate : create_table Scenario.env_ok s1 = (Ret true, s2))
    by (vm_compute; reflexivity).
  assert (Hget : get_company_symbols Scenario.env_ok s2 = (Ret Scenario.two_companies, s3))
    by (vm_compute; reflexivity).
  assert (Hd : sleep_accepted Scenario.env_ok (1 # 2))
    by (split; [vm_compute; reflexivity|intros h; reflexivity]).
  split; [exact Hd|].
  destruct (process_all_companies_counters Scenario.env_ok (1 # 2) s s1 s2 s3
              Scenario.two_companies Hconnect Hcreate Hget)
    as (Hsummary & _ & Hreturns).
  destruct (Hreturns Hd) as (s' & Hrun).
  exists s'. split; [exact Hrun|].
  destruct (Hsummary s' Hrun) as (su & fa & s4 & _ & Htrace & Hsum).
  exists su, fa, (trace s4). split; [|exact Hsum].
  rewrite Htrace. symmetry. apply app_assoc.
Defined.




(** C4 as stated fails: [get_company_symbols] also returns the empty
    list when the connection stopped answering, and then the run, which
    has created the destination table (a write to the store, committed),
    prints the summary with three zeros and returns without calling
    [close()]. *)
Lemma empty_list_after_lost_connection :
  let s := Scenario.fresh Scenario.two_companies None in
  let s1 := snd (connect_db Scenario.env_connection_lost s) in
  let s2 := snd (create_table Scenario.env_connection_lost s1) in
  let r := process_all_companies Scenario.env_connection_lost 1 s in
  fst (get_company_symbols Scenario.env_connection_lost s2) = Ret [] /\
  fst r = Ret tt /\
  (exists pre, trace (snd r) = pre ++ summary_events 0 0 0) /\
  List.filter is_store_call (trace (snd r)) = [Execute CreateTableIfNotExists; Commit] /\
  information_table s = None /\
  information_table (snd r) = Some empty_table /\
  List.filter is_close (trace (snd r)) = [] /\
  connection (snd r) = Some {| closed := false |}.
Proof.
  intros s s1 s2 r. split; [vm_compute; reflexivity|].
  split; [vm_compute; reflexivity|].
  split; [exists (firstn 7 (trace (snd r))); vm_compute; reflexivity|].
  repeat split; vm_compute; reflexivity.
Qed.

(** C4 (as amended).  When [get_company_symbols] returns the empty list,
    the run completes for any delay and prints total 0, successful 0 and
    failed 0.  It attempts no upsert and sends nothing to the server
    after [get_company_symbols], so the rows of the destination table are
    those from before the run; what the run did write is the CREATE TABLE
    IF NOT EXISTS of [create_table] and its commit, which made the table
    if there was none.  It calls [close()] exactly when the connection
    still answers after the summary, and leaves the extractor not
    connected. *)
Theorem process_all_companies_no_symbols
    (env : Env) (delay : Q) (s s1 s2 s3 : State) :
  connect_db env s = (Ret (Some true), s1) ->
  create_table env s1 = (Ret true, s2) ->
  get_company_symbols env s2 = (Ret [], s3) ->
  let printed := trace s3 ++ Stdout (StartingMsg 0) :: summary_events 0 0 0 in
  exists s',
    process_all_companies env delay s = (Ret tt, s') /\
    trace s' = printed ++ (if mysql_ping env printed
                           then [Close; Stdout ClosedMsg] else []) /\
    information_table s' = information_table s2 /\
    information_rows s' = information_rows s /\
    upsert_keys (trace s') = upsert_keys (trace s) /\
    not_connected env s' = true /\
    trace s2 = trace s1 ++ [Execute CreateTableIfNotExists; Commit;
                            Stdout TableCreatedMsg] /\
    information_table s2 = Some (default empty_table (information_table s)).
Proof.
  intros Hconnect Hcreate Hget printed.
  rewrite (process_all_companies_eq env delay 0 s s1 s2 s3 [] Hconnect Hcreate Hget eq_refl).
  pose proof (summary_state_open env delay s s1 s2 s3 [] 0 (0, 0)%nat
                (summary_events 0 0 0) Hconnect Hcreate Hget) as Hopen.
  destruct (connect_db_true env s s1 Hconnect) as (Hn & Ht1 & _ & Hk1).
  destruct (create_table_true env s1 s2 Hcreate) as (Hc2 & Hrows & _ & Hk2 & _).
  destruct (get_company_symbols_frame env s2 s3 [] Hget) as (Hc3 & Ht3 & Hk3).
  cbn [process_loop ret snd] in *.
  destruct (close_connection_frame env
              (record_events (summary_events 0 0 0)
                 (record_event (Stdout (StartingMsg 0)) s3)))
    as (s5 & -> & Hnc & Ht5 & _ & Htrace).
  rewrite (closing_open env _ Hopen), trace_record_events in Htrace.
  assert (Hprinted : trace (record_event (Stdout (StartingMsg 0)) s3)
                     ++ summary_events 0 0 0 = printed).
  { subst printed. simpl. now rewrite <- app_assoc. }
  rewrite Hprinted in Htrace.
  exists s5. split; [reflexivity|]. split; [exact Htrace|].
  rewrite information_table_record_events in Ht5. simpl in Ht5.
  split; [congruence|].
  split; [unfold information_rows; rewrite Ht5, Ht3;
          fold (information_rows s2); rewrite Hrows;
          unfold information_rows; now rewrite Ht1|].
  split.
  { rewrite Htrace. subst printed. unfold summary_events.
    destruct (mysql_ping env _); trace_simpl; congruence. }
  split; [exact Hnc|].
  clear - Hcreate Ht1. rewrite create_table_eq in Hcreate.
  destruct (not_connected env s1); [discriminate|].
  destruct (mysql_fault env (trace s1) _); [discriminate|].
  cbv zeta in Hcreate. destruct (commit_fault env _); [discriminate|].
  injection Hcreate as <-. simpl. rewrite <- !app_assoc, Ht1. split; reflexivity.
Qed.

Lemma process_all_companies_no_symbols_witness :
  let s := Scenario.fresh [] (Some {| rows := [Scenario.tcs_row]; auto_increment := 2 |}) in
  let s1 := snd (connect_db Scenario.env_ok s) in
  let s2 := snd (create_table Scenario.env_ok s1) in
  let s3 := snd (get_company_symbols Scenario.env_ok s2) in
  get_company_symbols Scenario.env_ok s2 = (Ret [], s3) /\
  exists s',
    process_all_companies Scenario.env_ok (1 # 2) s = (Ret tt, s') /\
    trace s' = (trace s3 ++ Stdout (StartingMsg 0) :: summary_events 0 0 0)
               ++ [Close; Stdout ClosedMsg] /\
    information_rows s' = [Scenario.tcs_row] /\
    upsert_keys (trace s') = [].
Proof.
  intros s s1 s2 s3.
  assert (Hconnect : connect_db Scenario.env_ok s = (Ret (Some true), s1))
    by (vm_compute; reflexivity).
  assert (Hcreate : create_table Scenario.env_ok s1 = (Ret true, s2))
    by (vm_compute; reflexivity).
  assert (Hget : get_company_symbols Scenario.env_ok s2 = (Ret [], s3))
    by (vm_compute; reflexivity).
  split; [exact Hget|].
  destruct (process_all_companies_no_symbols Scenario.env_ok (1 # 2) s s1 s2 s3
              Hconnect Hcreate Hget)
    as (s' & Hrun & Htrace & _ & Hrows & Hkeys & _).
  exists s'. split; [exact Hrun|]. split; [exact Htrace|].
  split; [exact Hrows|exact Hkeys].
Defined.

(** C5 at the failing input.  The connection is made, CREATE TABLE is
    denied: the run returns straight away and asks the provider nothing,
    but it never calls [close_connection]; the connection is still open,
    and answers, when the run is over. *)
Theorem create_table_failure_leaves_connection_open :
  let s := Scenario.fresh Scenario.two_companies None in
  let r := process_all_companies Scenario.env_ddl_denied 1 s in
  fst r = Ret tt /\
  trace (snd r)
  = [Connect; Stdout ConnectedMsg; Execute CreateTableIfNotExists;
     Stdout (CreateTableErrorMsg (MySQLError "CREATE command denied to user"))] /\
  tickers (trace (snd r)) = [] /\
  List.filter is_close (trace (snd r)) = [] /\
  connection (snd r) = Some {| closed := false |} /\
  not_connected Scenario.env_ddl_denied (snd r) = false.
Proof. vm_compute. repeat split. Qed.

(** C6.  [fetch_company_data] never raises.  When the provider raises
    [e], whatever [e] is, the result is [None] and the error is printed.
    When the provider answers [info], each of the four fields that [info]
    lacks is [None] in the result and each field it has is copied. *)
Theorem fetch_company_data_nulls_and_failures
    (env : Env) (symbol : string) (s : State) :
  (forall e, yf_info env (trace s) symbol = Raise e ->
     fetch_company_data env symbol s
     = (Ret None, record_events [Ticker symbol; Stdout (FetchDataErrorMsg symbol e)] s)) /\
  (forall info, yf_info env (trace s) symbol = Ret info ->
     exists data,
       fetch_company_data env symbol s = (Ret (Some data), record_event (Ticker symbol) s) /\
       forall field key, In (field, key) provider_fields ->
         (info !! field = None -> data !! key = Some VNone) /\
         (forall v, info !! field = Some v -> data !! key = Some v)) /\
  (exists r s', fetch_company_data env symbol s = (Ret r, s')).
Proof.
  rewrite fetch_company_data_eq. split; [|split].
  - intros e ->. reflexivity.
  - intros info ->. eexists. split; [reflexivity|].
    destruct (fetched_data_lookup symbol info) as (_ & Hr & Hc & Hi & Hs).
    intros field key Hin. unfold provider_fields in Hin. simpl in Hin.
    unfold dict_get in *.
    destruct Hin as [[= <- <-]|[[= <- <-]|[[= <- <-]|[[= <- <-]|[]]]]];
      split; intros; simplify_eq; cbn in *; try rewrite Hr; try rewrite Hc;
        try rewrite Hi; try rewrite Hs;
        match goal with H : _ !! _ = _ |- _ => rewrite H end; reflexivity.
  - destruct (yf_info env (trace s) symbol); eauto.
Qed.

Lemma fetch_company_data_nulls_and_failures_witness :
  let s := Scenario.holding Scenario.tcs_row in
  yf_info Scenario.env_ok (trace s) "NEWCO.NS" = Ret Scenario.sparse_info /\
  Scenario.sparse_info !! "totalRevenue" = None /\
  yf_info Scenario.env_ok (trace s) "BADSYM.NS"
  = Raise (OtherException "HTTPError" "404 Client Error") /\
  (exists data s',
     fetch_company_data Scenario.env_ok "NEWCO.NS" s = (Ret (Some data), s') /\
     data !! "revenue" = Some VNone /\
     data !! "market_cap" = Some (VInt 5000000)) /\
  fst (fetch_company_data Scenario.env_ok "BADSYM.NS" s) = Ret None.
Proof.
  intros s.
  assert (Hinfo : yf_info Scenario.env_ok (trace s) "NEWCO.NS" = Ret Scenario.sparse_info)
    by reflexivity.
  assert (Hnone : Scenario.sparse_info !! "totalRevenue" = None)
    by (vm_compute; reflexivity).
  assert (Hraise : yf_info Scenario.env_ok (trace s) "BADSYM.NS"
                   = Raise (OtherException "HTTPError" "404 Client Error"))
    by reflexivity.
  split; [exact Hinfo|]. split; [exact Hnone|]. split; [exact Hraise|]. split.
  - destruct (fetch_company_data_nulls_and_failures Scenario.env_ok "NEWCO.NS" s)
      as (_ & Hanswer & _).
    destruct (Hanswer _ Hinfo) as (data & Hfetch & Hfields).
    exists data, (record_event (Ticker "NEWCO.NS") s). split; [exact Hfetch|]. split.
    + destruct (Hfields "totalRevenue" "revenue") as [Habsent _]; [simpl; auto|].
      exact (Habsent Hnone).
    + destruct (Hfields "marketCap" "market_cap") as [_ Hpresent]; [simpl; auto|].
      apply Hpresent. vm_compute; reflexivity.
  - destruct (fetch_company_data_nulls_and_failures Scenario.env_ok "BADSYM.NS" s)
      as (Hfail & _).
    rewrite (Hfail _ Hraise). reflexivity.
Defined.

(** * What the provider is asked *)

(** C7.  [fetch_company_data] queries the provider exactly once and with
    [symbol] as it is; its result is what the provider answers for that
    very string.  So each iteration queries the symbol of its pair, and a
    loop that returns has queried the symbols of the source rows, one by
    one and in order. *)
Theorem fetch_company_data_passes_symbol (env : Env) (symbol : string) (s : State) :
  (exists evs, trace (snd (fetch_company_data env symbol s))
               = trace s ++ Ticker symbol :: evs /\ tickers evs = []) /\
  fst (fetch_company_data env symbol s)
  = match yf_info env (trace s) symbol with
    | Ret info => Ret (Some (fetched_data symbol info))
    | Raise _ => Ret None
    end /\
  (forall delay total idx name su fa st,
     tickers (trace (snd (process_company env delay total idx (symbol, name) (su, fa) st)))
     = tickers (trace st) ++ [symbol]) /\
  (forall delay total idx companies c st c' st',
     process_loop env delay total idx companies c st = (Ret c', st') ->
     tickers (trace st') = tickers (trace st) ++ List.map fst companies).
Proof.
  rewrite fetch_company_data_eq. split; [|split; [|split]].
  - destruct (yf_info env (trace s) symbol) as [info|e]; simpl.
    + exists []. split; reflexivity.
    + exists [Stdout (FetchDataErrorMsg symbol e)].
      split; [now rewrite <- app_assoc|reflexivity].
  - destruct (yf_info env (trace s) symbol); reflexivity.
  - intros. apply process_company_tickers.
  - intros delay total idx companies c st c' st'. apply process_loop_tickers.
Qed.

Lemma fetch_company_data_passes_symbol_witness :
  let s := Scenario.fresh Scenario.two_companies (Some empty_table) in
  let s0 := set_connection (Some Scenario.connected) s in
  process_loop Scenario.env_ok 1 2 1 Scenario.two_companies (0, 0)%nat s0
  = (Ret (1, 1)%nat,
     snd (process_loop Scenario.env_ok 1 2 1 Scenario.two_companies (0, 0)%nat s0)) /\
  tickers (trace (snd (process_loop Scenario.env_ok 1 2 1 Scenario.two_companies
                         (0, 0)%nat s0)))
  = ["TCS.NS"; "BADSYM.NS"].
Proof.
  intros s s0.
  assert (Hloop : process_loop Scenario.env_ok 1 2 1 Scenario.two_companies (0, 0)%nat s0
                  = (Ret (1, 1)%nat,
                     snd (process_loop Scenario.env_ok 1 2 1 Scenario.two_companies
                            (0, 0)%nat s0)))
    by (vm_compute; reflexivity).
  split; [exact Hloop|].
  destruct (fetch_company_data_passes_symbol Scenario.env_ok "TCS.NS" s0)
    as (_ & _ & _ & Hall).
  exact (Hall 1%Q 2%nat 1%nat Scenario.two_companies _ s0 _ _ Hloop).
Defined.

(** * The pause *)

(** C8 as stated fails: with a single symbol there is nothing between two
    iterations, yet the run sleeps once, after the only iteration and
    right before the summary. *)
Lemma sleep_follows_last_iteration :
  let s := Scenario.fresh [("TCS.NS", "Tata Consultancy")] None in
  let r := process_all_companies Scenario.env_ok (1 # 2) s in
  fst r = Ret tt /\
  sleeps (trace (snd r)) = [1 # 2] /\
  length (sleeps (trace (snd r))) <> (length (source_table s) - 1)%nat /\
  exists pre post, trace (snd r) = pre ++ [Sleep (1 # 2); Stdout RuleMsg] ++ post.
Proof.
  intros s r. split; [vm_compute; reflexivity|].
  split; [vm_compute; reflexivity|].
  split; [vm_compute; discriminate|].
  eexists (firstn 13 (trace (snd r))), (skipn 15 (trace (snd r))).
  vm_compute. reflexivity.
Qed.

(** C8 (as amended).  With a delay that [time.sleep] accepts, every
    iteration of the loop ends with one [time.sleep(delay)], whether its
    fetch and upsert succeeded or failed, the last iteration included: a
    loop over N pairs sleeps N times, each time for [delay], and so does
    the run that got the N pairs from [get_company_symbols]. *)
Theorem sleep_after_every_iteration (env : Env) (delay : Q) (total : nat) :
  sleep_accepted env delay ->
  (forall idx symbol name su fa s,
     exists c s1,
       process_company env delay total idx (symbol, name) (su, fa) s
       = (Ret c, record_event (Sleep delay) s1) /\
       sleeps (trace s1) = sleeps (trace s)) /\
  (forall companies idx su fa s,
     exists c' s',
       process_loop env delay total idx companies (su, fa) s = (Ret c', s') /\
       sleeps (trace s') = sleeps (trace s) ++ repeat delay (length companies)) /\
  (forall companies s s1 s2 s3,
     connect_db env s = (Ret (Some true), s1) ->
     create_table env s1 = (Ret true, s2) ->
     get_company_symbols env s2 = (Ret companies, s3) ->
     exists s',
       process_all_companies env delay s = (Ret tt, s') /\
       sleeps (trace s') = sleeps (trace s) ++ repeat delay (length companies)).
Proof.
  intros Hd. split; [|split].
  - intros idx symbol name su fa s.
    destruct (process_company_returns env delay total idx symbol name su fa s Hd)
      as (c & s1 & Hstep & _ & _ & Hs).
    exists c, s1. split; assumption.
  - intros companies idx su fa s.
    destruct (process_loop_returns env delay total companies Hd idx su fa s)
      as (su' & fa' & s' & Hloop & _ & _ & Hs).
    exists (su', fa'), s'. split; assumption.
  - intros companies s s1 s2 s3 Hconnect Hcreate Hget.
    rewrite (process_all_companies_eq env delay (length companies) s s1 s2 s3 companies
               Hconnect Hcreate Hget eq_refl).
    pose proof (connect_db_frame env s) as (_ & _ & Hs1 & _).
    pose proof (create_table_frame env s1) as (_ & _ & Hs2 & _).
    pose proof (get_company_symbols_setup env s2) as ((_ & _ & Hs3 & _) & _).
    rewrite Hconnect in Hs1. rewrite Hcreate in Hs2. rewrite Hget in Hs3.
    simpl in Hs1, Hs2, Hs3.
    destruct (process_loop_returns env delay (length companies) companies Hd
                1%nat 0%nat 0%nat
                (record_event (Stdout (StartingMsg (length companies))) s3))
      as (su & fa & s4 & -> & _ & _ & Hs).
    destruct (close_connection_frame env
                (record_events (summary_events (length companies) su fa) s4))
      as (s5 & -> & _ & _ & _ & Htrace).
    exists s5. split; [reflexivity|].
    rewrite Htrace, trace_record_events. unfold closing, summary_events.
    revert Hs. trace_simpl. intros Hs.
    destruct (not_connected env _); trace_simpl; rewrite Hs; congruence.
Qed.

Lemma sleep_after_every_iteration_witness :
  let s := Scenario.fresh Scenario.two_companies None in
  let s1 := snd (connect_db Scenario.env_ok s) in
  let s2 := snd (create_table Scenario.env_ok s1) in
  let s3 := snd (get_company_symbols Scenario.env_ok s2) in
  sleep_accepted Scenario.env_ok (1 # 2) /\
  (exists c' s',
     process_loop Scenario.env_ok (1 # 2) 2 1 Scenario.two_companies (0, 0)%nat
       (Scenario.holding Scenario.old_tcs_row)
     = (Ret c', s') /\
     sleeps (trace s') = [1 # 2; 1 # 2]) /\
  exists s',
    process_all_companies Scenario.env_ok (1 # 2) s = (Ret tt, s') /\
    sleeps (trace s') = [1 # 2; 1 # 2].
Proof.
  intros s s1 s2 s3.
  assert (Hd : sleep_accepted Scenario.env_ok (1 # 2))
    by (split; [vm_compute; reflexivity|intros h; reflexivity]).
  assert (Hconnect : connect_db Scenario.env_ok s = (Ret (Some true), s1))
    by (vm_compute; reflexivity).
  assert (Hcreate : create_table Scenario.env_ok s1 = (Ret true, s2))
    by (vm_compute; reflexivity).
  assert (Hget : get_company_symbols Scenario.env_ok s2 = (Ret Scenario.two_companies, s3))
    by (vm_compute; reflexivity).
  split; [exact Hd|].
  destruct (sleep_after_every_iteration Scenario.env_ok (1 # 2) 2 Hd)
    as (_ & Hloop & Hrun).
  split.
  - destruct (Hloop Scenario.two_companies 1%nat 0%nat 0%nat
                (Scenario.holding Scenario.old_tcs_row)) as (c' & s' & Hl & Hs).
    exists c', s'. split; [exact Hl|exact Hs].
  - destruct (Hrun Scenario.two_companies s s1 s2 s3 Hconnect Hcreate Hget)
      as (s' & Hr & Hs).
    exists s'. split; [exact Hr|exact Hs].
Defined.

(** * Reading the source table *)

(** C9.  [get_company_symbols] returns the empty list, after printing and
    without raising, when the extractor has no connection or the
    connection does not answer, and when the SELECT raises an [Error];
    otherwise it returns all the pairs of the source table. *)
Theorem get_company_symbols_outcomes (env : Env) (s : State) :
  (not_connected env s = true ->
   get_company_symbols env s = (Ret [], record_event (Stdout NotConnectedMsg) s)) /\
  (not_connected env s = false ->
   forall msg, mysql_fault env (trace s) SelectSymbolName = Some msg ->
   get_company_symbols env s
   = (Ret [], record_events [Execute SelectSymbolName;
                             Stdout (FetchSymbolsErrorMsg (MySQLError msg))] s)) /\
  (not_connected env s = false ->
   mysql_fault env (trace s) SelectSymbolName = None ->
   get_company_symbols env s
   = (Ret (source_table s),
      record_events [Execute SelectSymbolName;
                     Stdout (FetchedMsg (length (source_table s)))] s)).
Proof.
  rewrite get_company_symbols_eq. split; [|split].
  - intros ->. reflexivity.
  - intros -> msg ->. reflexivity.
  - intros -> ->. reflexivity.
Qed.

Lemma get_company_symbols_outcomes_witness :
  fst (get_company_symbols Scenario.env_ok (Scenario.fresh Scenario.two_companies None))
  = Ret [] /\
  fst (get_company_symbols Scenario.env_connection_lost
         (record_events [Connect; Stdout ConnectedMsg; Execute CreateTableIfNotExists;
                         Commit; Stdout TableCreatedMsg]
            (Scenario.holding Scenario.tcs_row))) = Ret [] /\
  fst (get_company_symbols Scenario.env_select_fails
         (Scenario.holding Scenario.tcs_row)) = Ret [] /\
  fst (get_company_symbols Scenario.env_ok (Scenario.holding Scenario.tcs_row))
  = Ret Scenario.two_companies.
Proof.
  split; [|split; [|split]].
  - destruct (get_company_symbols_outcomes Scenario.env_ok
                (Scenario.fresh Scenario.two_companies None)) as (H & _).
    rewrite H; reflexivity.
  - destruct (get_company_symbols_outcomes Scenario.env_connection_lost
                (record_events [Connect; Stdout ConnectedMsg;
                                Execute CreateTableIfNotExists;
                                Commit; Stdout TableCreatedMsg]
                   (Scenario.holding Scenario.tcs_row))) as (H & _).
    rewrite H; reflexivity.
  - destruct (get_company_symbols_outcomes Scenario.env_select_fails
                (Scenario.holding Scenario.tcs_row)) as (_ & H & _).
    rewrite (H eq_refl _ eq_refl). reflexivity.
  - destruct (get_company_symbols_outcomes Scenario.env_ok
                (Scenario.holding Scenario.tcs_row)) as (_ & _ & H).
    rewrite (H eq_refl eq_refl). reflexivity.
Defined.

(** * The fetched dictionary *)

Lemma fetched_data_dom (symbol : string) (info : gmap string value) :
  dom (fetched_data symbol info)
  = ({["symbol"; "revenue"; "market_cap"; "industry"; "sector"]} : gset string).
Proof. unfold fetched_data. rewrite !dom_insert_L, dom_empty_L. set_solver. Qed.

(** C10.  A dictionary returned by [fetch_company_data] has exactly the
    keys symbol, revenue, market_cap, industry and sector, and its symbol
    is the argument.  So each upsert the loop attempts is keyed by the
    symbol of one of the pairs of the list, whatever the outcome of the
    loop. *)
Theorem fetch_company_data_keys
    (env : Env) (symbol : string) (s s' : State) (data : gmap string value) :
  fetch_company_data env symbol s = (Ret (Some data), s') ->
  dom data = ({["symbol"; "revenue"; "market_cap"; "industry"; "sector"]} : gset string) /\
  data !! "symbol" = Some (VStr symbol) /\
  (forall delay total idx name su fa st,
     exists ks,
       upsert_keys (trace (snd (process_company env delay total idx
                                  (symbol, name) (su, fa) st)))
       = upsert_keys (trace st) ++ ks /\
       (ks = [] \/ ks = [VStr symbol])) /\
  (forall delay total idx companies c st,
     exists ks,
       upsert_keys (trace (snd (process_loop env delay total idx companies c st)))
       = upsert_keys (trace st) ++ ks /\
       Forall (from_companies companies) ks).
Proof.
  rewrite fetch_company_data_eq.
  destruct (yf_info env (trace s) symbol) as [info|e]; [|discriminate].
  intros [= <- _]. split; [apply fetched_data_dom|].
  split; [apply fetched_data_lookup|]. split.
  - intros. apply process_company_frame.
  - intros. apply process_loop_frame.
Qed.

Lemma fetch_company_data_keys_witness :
  let s := Scenario.holding Scenario.old_tcs_row in
  fetch_company_data Scenario.env_ok "TCS.NS" s
  = (Ret (Some Scenario.tcs_data), record_event (Ticker "TCS.NS") s) /\
  Scenario.tcs_data !! "symbol" = Some (VStr "TCS.NS") /\
  dom Scenario.tcs_data
  = ({["symbol"; "revenue"; "market_cap"; "industry"; "sector"]} : gset string).
Proof.
  intros s.
  assert (Hfetch : fetch_company_data Scenario.env_ok "TCS.NS" s
                   = (Ret (Some Scenario.tcs_data), record_event (Ticker "TCS.NS") s))
    by reflexivity.
  split; [exact Hfetch|].
  destruct (fetch_company_data_keys Scenario.env_ok "TCS.NS" s _ _ Hfetch)
    as (Hdom & Hsym & _).
  split; [exact Hsym|exact Hdom].
Defined.

(** * Connecting and closing *)

(** X1.  [connect_db] never raises, and its result is decided by two
    answers.  When [connect] raises an [Error] it prints the error and
    returns [False], and the [connection] attribute is not assigned.  When
    [connect] returns and the new connection answers [is_connected()], it
    prints and returns [True] with the attribute set to the new
    connection.  When [connect] returns and the new connection does not
    answer, the attribute is set all the same and the result is [None]
    (nothing is printed).  The tables are not touched, and a fresh
    extractor that got a false value is not connected. *)
Theorem connect_db_outcomes (env : Env) (s : State) :
  (forall msg, mysql_connect env (trace s) = Some msg ->
     connect_db env s
     = (Ret (Some false),
        record_events [Connect; Stdout (ConnectErrorMsg (MySQLError msg))] s)) /\
  (mysql_connect env (trace s) = None ->
   mysql_ping env (trace s ++ [Connect]) = true ->
   connect_db env s
   = (Ret (Some true),
      record_event (Stdout ConnectedMsg)
        (set_connection (Some {| closed := false |}) (record_event Connect s)))) /\
  (mysql_connect env (trace s) = None ->
   mysql_ping env (trace s ++ [Connect]) = false ->
   connect_db env s
   = (Ret None, set_connection (Some {| closed := false |}) (record_event Connect s))) /\
  (exists flag s',
     connect_db env s = (Ret flag, s') /\
     information_table s' = information_table s /\
     source_table s' = source_table s /\
     (flag = Some false -> connection s' = connection s) /\
     (connection s = None -> truthy_flag flag = false -> not_connected env s' = true)).
Proof.
  rewrite connect_db_eq. split; [|split; [|split]].
  - intros msg ->. reflexivity.
  - intros -> ->. reflexivity.
  - intros -> ->. reflexivity.
  - destruct (mysql_connect env (trace s)) as [msg|].
    + eexists _, _. split; [reflexivity|]. unfold not_connected. simpl.
      repeat split. now intros ->.
    + destruct (mysql_ping env (trace s ++ [Connect])) eqn:Hping;
        eexists _, _; (split; [reflexivity|]); simpl; repeat split; try discriminate.
      intros _ _. unfold not_connected, is_connected. simpl. now rewrite Hping.
Qed.

Lemma connect_db_outcomes_witness :
  let s := Scenario.fresh Scenario.two_companies None in
  fst (connect_db MoreRuns.env_unreachable s) = Ret (Some false) /\
  connection (snd (connect_db MoreRuns.env_unreachable s)) = None /\
  fst (connect_db Scenario.env_ok s) = Ret (Some true) /\
  fst (connect_db MoreRuns.env_dead_connection s) = Ret None /\
  connection (snd (connect_db MoreRuns.env_dead_connection s))
  = Some {| closed := false |}.
Proof.
  intros s.
  destruct (connect_db_outcomes MoreRuns.env_unreachable s) as (Hrefused & _).
  destruct (connect_db_outcomes Scenario.env_ok s) as (_ & Hanswers & _).
  destruct (connect_db_outcomes MoreRuns.env_dead_connection s) as (_ & _ & Hdead & _).
  rewrite (Hrefused _ eq_refl), (Hanswers eq_refl eq_refl), (Hdead eq_refl eq_refl).
  repeat split.
Defined.

(** X2.  [close_connection] never raises and leaves the extractor not
    connected; it calls [close()] only on a connection that answers
    [is_connected()], so a second call, or a call on an extractor that
    never connected, does nothing at all.  The tables are not touched. *)
Theorem close_connection_twice (env : Env) (s : State) :
  exists s1,
    close_connection env s = (Ret tt, s1) /\
    not_connected env s1 = true /\
    close_connection env s1 = (Ret tt, s1) /\
    (not_connected env s = true -> s1 = s) /\
    (not_connected env s = false ->
     trace s1 = trace s ++ [Close; Stdout ClosedMsg]) /\
    information_table s1 = information_table s.
Proof.
  destruct (close_connection_frame env s) as (s1 & Hclose & Hn & Ht & _ & Htr).
  exists s1. split; [exact Hclose|]. split; [exact Hn|].
  split; [rewrite close_connection_eq; now rewrite Hn|].
  split; [|split; [|exact Ht]].
  - intros Hs. rewrite close_connection_eq, Hs in Hclose. now injection Hclose.
  - intros Hs. unfold closing in Htr. now rewrite Hs in Htr.
Qed.

Lemma close_connection_twice_witness :
  let s := Scenario.holding Scenario.tcs_row in
  not_connected Scenario.env_ok s = false /\
  exists s1, close_connection Scenario.env_ok s = (Ret tt, s1) /\
             trace s1 = [Close; Stdout ClosedMsg] /\
             close_connection Scenario.env_ok s1 = (Ret tt, s1).
Proof.
  intros s. assert (Hs : not_connected Scenario.env_ok s = false) by reflexivity.
  split; [exact Hs|].
  destruct (close_connection_twice Scenario.env_ok s) as (s1 & H1 & _ & H2 & _ & Htr & _).
  exists s1. split; [exact H1|]. split; [exact (Htr Hs)|exact H2].
Defined.

(** * Creating the table *)

(** X3.  A [create_table] that returns [True] leaves an existing
    destination table exactly as it was, rows and counter, and creates an
    empty one when there was none; calling it again, whatever the second
    call returns, changes nothing. *)
Theorem create_table_idempotent (env : Env) (s s1 : State) :
  create_table env s = (Ret true, s1) ->
  information_table s1 = Some (default empty_table (information_table s)) /\
  (forall t, information_table s = Some t -> information_table s1 = Some t) /\
  information_table (snd (create_table env s1)) = information_table s1.
Proof.
  rewrite !create_table_eq.
  destruct (not_connected env s); [discriminate|].
  destruct (mysql_fault env (trace s) _); [discriminate|].
  cbv zeta. destruct (commit_fault env _); [discriminate|].
  intros [= <-]. split; [reflexivity|]. split; [now intros t ->|].
  destruct (not_connected env _); [reflexivity|].
  destruct (mysql_fault env _ _); [reflexivity|].
  destruct (commit_fault env _); reflexivity.
Qed.

Lemma create_table_idempotent_witness :
  let s := Scenario.holding Scenario.tcs_row in
  create_table Scenario.env_ok s = (Ret true, snd (create_table Scenario.env_ok s)) /\
  information_table (snd (create_table Scenario.env_ok s))
  = Some {| rows := [Scenario.tcs_row]; auto_increment := 2 |}.
Proof.
  intros s.
  assert (H : create_table Scenario.env_ok s = (Ret true, snd (create_table Scenario.env_ok s)))
    by (vm_compute; reflexivity).
  split; [exact H|].
  destruct (create_table_idempotent Scenario.env_ok s _ H) as (_ & Hkeep & _).
  apply Hkeep. reflexivity.
Defined.

(** X4.  [create_table] never raises and has four outcomes.  Without a
    connection that answers it prints and returns [False], having sent
    nothing.  When the statement raises an [Error] it prints the error and
    returns [False], and the table is as before.  When the statement is
    accepted and [commit()] raises an [Error] it also prints the error and
    returns [False], but the table has been created.  Otherwise it
    prints and returns [True].  The rows of an existing table are the
    same in every case. *)
Theorem create_table_failure (env : Env) (s : State) :
  let s1 := set_information_table
              (Some (default empty_table (information_table s)))
              (record_event (Execute CreateTableIfNotExists) s) in
  (not_connected env s = true ->
   create_table env s = (Ret false, record_event (Stdout NotConnectedMsg) s)) /\
  (not_connected env s = false ->
   forall msg, mysql_fault env (trace s) CreateTableIfNotExists = Some msg ->
   create_table env s
   = (Ret false,
      record_events [Execute CreateTableIfNotExists;
                     Stdout (CreateTableErrorMsg (MySQLError msg))] s)) /\
  (not_connected env s = false ->
   mysql_fault env (trace s) CreateTableIfNotExists = None ->
   forall msg, commit_fault env (trace s1) = Some msg ->
   create_table env s
   = (Ret false,
      record_events [Commit; Stdout (CreateTableErrorMsg (MySQLError msg))] s1)) /\
  (not_connected env s = false ->
   mysql_fault env (trace s) CreateTableIfNotExists = None ->
   commit_fault env (trace s1) = None ->
   create_table env s = (Ret true, record_events [Commit; Stdout TableCreatedMsg] s1)) /\
  (exists b s', create_table env s = (Ret b, s') /\
                information_rows s' = information_rows s /\
                (b = true -> is_Some (information_table s'))).
Proof.
  intros s1. rewrite create_table_eq. cbv zeta. fold s1.
  split; [intros ->; reflexivity|].
  split; [intros -> msg ->; reflexivity|].
  split; [intros -> -> msg ->; reflexivity|].
  split; [intros -> -> ->; reflexivity|].
  destruct (not_connected env s).
  { eexists _, _. split; [reflexivity|]. split; [reflexivity|discriminate]. }
  destruct (mysql_fault env (trace s) _).
  { eexists _, _. split; [reflexivity|]. split; [reflexivity|discriminate]. }
  assert (Hrows : information_rows s1 = information_rows s).
  { subst s1. unfold information_rows. simpl. destruct (information_table s); reflexivity. }
  destruct (commit_fault env (trace s1)); eexists _, _; (split; [reflexivity|]);
    (split; [exact Hrows|]); [discriminate|]. intros _. subst s1. simpl. eauto.
Qed.

Lemma create_table_failure_witness :
  let s := set_connection (Some Scenario.connected)
             (Scenario.fresh Scenario.two_companies None) in
  not_connected MoreRuns.env_commit_fails s = false /\
  fst (create_table MoreRuns.env_commit_fails s) = Ret false /\
  information_table s = None /\
  information_table (snd (create_table MoreRuns.env_commit_fails s)) = Some empty_table /\
  create_table Scenario.env_ok (Scenario.fresh Scenario.two_companies None)
  = (Ret false,
     record_event (Stdout NotConnectedMsg) (Scenario.fresh Scenario.two_companies None)).
Proof.
  intros s.
  assert (Hs : not_connected MoreRuns.env_commit_fails s = false) by reflexivity.
  split; [exact Hs|].
  destruct (create_table_failure MoreRuns.env_commit_fails s) as (_ & _ & Hcommit & _).
  destruct (create_table_failure Scenario.env_ok
              (Scenario.fresh Scenario.two_companies None)) as (Hguard & _).
  rewrite (Hcommit Hs eq_refl _ eq_refl), (Hguard eq_refl).
  repeat split.
Defined.

(** * More on insert_company_data *)

(** X5.  On a connected extractor whose [cursor()] returns,
    [insert_company_data] with a dictionary that lacks one of the keys
    symbol, revenue, market_cap, industry, sector raises [KeyError] for
    the first key it lacks, in that order: [except Error] does not catch
    it, nothing is sent to the server and the state is as before.  When
    [cursor()] itself raises an [Error], the handler runs before any of
    these subscripts: the call prints and returns [False] if the
    dictionary has the key symbol, and raises [KeyError] for symbol if
    not.  Without a connection the guard comes first and the call returns
    [False]. *)
Theorem insert_company_data_missing_key
    (env : Env) (data : gmap string value) (s : State) (key : string) :
  In key five_keys ->
  data !! key = None ->
  exists k,
    first_missing data = Some k /\ data !! k = None /\
    (not_connected env s = false ->
     cursor_fault env (trace s) = None ->
     insert_company_data env data s = (Raise (KeyError k), s)) /\
    (not_connected env s = false ->
     forall msg, cursor_fault env (trace s) = Some msg ->
     insert_company_data env data s =
     match data !! "symbol" with
     | Some sym =>
         (Ret false, record_event (Stdout (InsertErrorMsg sym (MySQLError msg))) s)
     | None => (Raise (KeyError "symbol"), s)
     end) /\
    (not_connected env s = true ->
     insert_company_data env data s
     = (Ret false, record_event (Stdout NotConnectedMsg) s)).
Proof.
  intros Hin Hkey. destruct (first_missing_found data key Hin Hkey) as (k & Hk).
  exists k. split; [exact Hk|].
  split; [apply (first_missing_some data k Hk)|]. split; [|split].
  - intros Hc Hcur. now apply insert_company_data_missing.
  - intros Hc msg Hcur. now apply insert_company_data_no_cursor.
  - intros Hc. unfold insert_company_data. unfold_comp. now rewrite Hc.
Qed.

Lemma insert_company_data_missing_key_witness :
  In "sector" five_keys /\
  MoreRuns.partial_data !! "sector" = None /\
  insert_company_data Scenario.env_ok MoreRuns.partial_data
    (Scenario.holding Scenario.tcs_row)
  = (Raise (KeyError "market_cap"), Scenario.holding Scenario.tcs_row) /\
  fst (insert_company_data MoreRuns.env_no_cursor MoreRuns.partial_data
         (Scenario.holding Scenario.tcs_row))
  = Ret false.
Proof.
  assert (Hin : In "sector" five_keys) by (simpl; auto 6).
  assert (Hkey : MoreRuns.partial_data !! "sector" = None) by (vm_compute; reflexivity).
  split; [exact Hin|]. split; [exact Hkey|].
  destruct (insert_company_data_missing_key Scenario.env_ok MoreRuns.partial_data
              (Scenario.holding Scenario.tcs_row) "sector" Hin Hkey)
    as (k & Hk & _ & Hraise & _).
  destruct (insert_company_data_missing_key MoreRuns.env_no_cursor MoreRuns.partial_data
              (Scenario.holding Scenario.tcs_row) "sector" Hin Hkey)
    as (_ & _ & _ & _ & Hhandler & _).
  assert (Hfirst : first_missing MoreRuns.partial_data = Some "market_cap")
    by (vm_compute; reflexivity).
  rewrite Hfirst in Hk. injection Hk as <-.
  split; [apply Hraise; reflexivity|].
  rewrite (Hhandler eq_refl _ eq_refl). vm_compute. reflexivity.
Defined.

(** X6.  With the five keys present [insert_company_data] never raises,
    and it never changes the [connection] attribute.  It returns [True]
    only when the extractor is connected, [cursor()] returned, the server
    accepted the statement and [commit()] returned; the table then holds
    the upsert.
    When it does not return [True] the destination table is untouched,
    with one exception: the server accepted the statement and [commit()]
    raised an [Error]; the call then returns [False] although the
    connection has the upsert in its table. *)
Theorem insert_company_data_failure
    (env : Env) (data : gmap string value) (s : State) :
  let r := insert_company_data env data s in
  let q := InsertOnDuplicateKeyUpdate (values_of data) in
  let upserted t :=
    Some (insert_on_duplicate_key_update (collation env)
            (current_timestamp env (trace s)) (values_of data) t) in
  (first_missing data = None -> exists b, fst r = Ret b) /\
  connection (snd r) = connection s /\
  (fst r = Ret true ->
   not_connected env s = false /\
   cursor_fault env (trace s) = None /\
   mysql_fault env (trace s) q = None /\
   commit_fault env (trace s ++ [Execute q]) = None /\
   exists t, information_table s = Some t /\ information_table (snd r) = upserted t) /\
  (fst r <> Ret true ->
   information_table (snd r) = information_table s \/
   (fst r = Ret false /\
    mysql_fault env (trace s) q = None /\
    (exists msg, commit_fault env (trace s ++ [Execute q]) = Some msg) /\
    exists t, information_table s = Some t /\ information_table (snd r) = upserted t)) /\
  (fst r <> Ret true ->
   commit_fault env (trace s ++ [Execute q]) = None ->
   information_table (snd r) = information_table s).
Proof.
  intros r q upserted. subst r q upserted.
  pose proof (insert_company_data_table env data s) as (Hc & _ & Htab).
  split; [|split; [exact Hc|split; [|split]]].
  - intros Hm. apply first_missing_none in Hm as (H1 & H2 & H3 & H4 & H5).
    rewrite insert_company_data_eq by assumption.
    destruct (not_connected env s); [eauto|].
    destruct (cursor_fault env (trace s)); [eauto|].
    destruct (mysql_fault env (trace s) _); [eauto|].
    destruct (information_table s); [|eauto].
    destruct (bool_decide _); [eauto|].
    cbv zeta. destruct (commit_fault env _); eauto.
  - intros Heq.
    destruct Htab as [(Hn & _ & Hcur & Hf & Ht & [(_ & Hcommit)|(Hfalse & _)])|(Hne & _)];
      [auto|congruence|contradiction].
  - intros Hne.
    destruct Htab as [(_ & _ & _ & Hf & Ht & [(Htrue & _)|(Hfalse & Hcommit)])|(_ & Hsame)];
      [contradiction|right; auto|left; exact Hsame].
  - intros Hne Hcommit.
    destruct Htab as [(_ & _ & _ & _ & _ & [(Htrue & _)|(_ & msg & Hmsg)])|(_ & Hsame)];
      [contradiction|congruence|exact Hsame].
Qed.

Lemma insert_company_data_failure_witness :
  let s := Scenario.holding Scenario.old_tcs_row in
  fst (insert_company_data MoreRuns.env_read_only Scenario.tcs_data s) = Ret false /\
  information_table (snd (insert_company_data MoreRuns.env_read_only Scenario.tcs_data s))
  = information_table s /\
  fst (insert_company_data MoreRuns.env_commit_fails Scenario.tcs_data s) = Ret false /\
  List.map revenue
    (information_rows
       (snd (insert_company_data MoreRuns.env_commit_fails Scenario.tcs_data s)))
  = [VInt 2400000000000].
Proof.
  intros s.
  assert (H : fst (insert_company_data MoreRuns.env_read_only Scenario.tcs_data s)
              = Ret false) by (vm_compute; reflexivity).
  assert (H' : fst (insert_company_data MoreRuns.env_commit_fails Scenario.tcs_data s)
               = Ret false) by (vm_compute; reflexivity).
  split; [exact H|].
  destruct (insert_company_data_failure MoreRuns.env_read_only Scenario.tcs_data s)
    as (_ & _ & _ & _ & Hsame).
  split; [apply Hsame; [rewrite H; discriminate|reflexivity]|].
  split; [exact H'|].
  destruct (insert_company_data_failure MoreRuns.env_commit_fails Scenario.tcs_data s)
    as (_ & _ & _ & Hcases & _).
  destruct Hcases as [Hsame'|(_ & _ & _ & t & Ht & Ht')]; [rewrite H'; discriminate| |].
  - exfalso. revert Hsame'. vm_compute. discriminate.
  - unfold information_rows. rewrite Ht'. injection Ht as <-. vm_compute. reflexivity.
Defined.

(** X7.  Whatever [insert_company_data] does, the rows that the server
    does not find under [data['symbol']] (compared by the collation of
    the column) are exactly as before; so are the rows stored under any
    key whose rows it never finds under [data['symbol']]. *)
Theorem insert_company_data_other_rows
    (env : Env) (data : gmap string value) (s : State) (sym : value) :
  data !! "symbol" = Some sym ->
  other_rows env sym (snd (insert_company_data env data s)) = other_rows env sym s /\
  (forall k,
     (forall r, has_symbol (collation env) k r = true ->
                has_symbol (collation env) sym r = false) ->
     stored env k (snd (insert_company_data env data s)) = stored env k s).
Proof.
  intros Hsym.
  assert (Hv : v_symbol (values_of data) = sym)
    by (unfold values_of, dict_get; simpl; now rewrite Hsym).
  pose proof (insert_company_data_table env data s) as (_ & _ & Htab).
  unfold other_rows, stored, information_rows.
  destruct Htab as [(_ & _ & _ & _ & (t & -> & ->) & _)|(_ & ->)]; [|split; reflexivity].
  split.
  - apply insert_keeps_others.
    + intros r r' Hr. f_equal. now apply has_symbol_by_symbol.
    + intros r Hr. rewrite Hv in Hr. now rewrite Hr.
  - intros k Hk. apply insert_keeps_others.
    + intros r r' Hr. now apply has_symbol_by_symbol.
    + intros r Hr. rewrite Hv in Hr.
      destruct (has_symbol (collation env) k r) eqn:E; [|reflexivity].
      apply Hk in E. congruence.
Qed.

Lemma insert_company_data_other_rows_witness :
  let s := Scenario.holding Scenario.old_tcs_row in
  let data := fetched_data "NEWCO.NS" Scenario.sparse_info in
  data !! "symbol" = Some (VStr "NEWCO.NS") /\
  fst (insert_company_data Scenario.env_ok data s) = Ret true /\
  other_rows Scenario.env_ok (VStr "NEWCO.NS")
    (snd (insert_company_data Scenario.env_ok data s))
  = [Scenario.old_tcs_row].
Proof.
  intros s data.
  assert (Hsym : data !! "symbol" = Some (VStr "NEWCO.NS")) by (vm_compute; reflexivity).
  split; [exact Hsym|]. split; [vm_compute; reflexivity|].
  destruct (insert_company_data_other_rows Scenario.env_ok data s
              (VStr "NEWCO.NS") Hsym) as (Hothers & _).
  rewrite Hothers. vm_compute. reflexivity.
Defined.

(** X8.  Upserting the same dictionary a second time, at any later
    moment, leaves the rows of the destination table exactly as the first
    upsert left them: no new row, and no column changes, [updated_at]
    included. *)
Theorem insert_company_data_twice
    (env : Env) (data : gmap string value) (s s1 s1' s2 : State) :
  insert_company_data env data s = (Ret true, s1) ->
  information_table s1' = information_table s1 ->
  insert_company_data env data s1' = (Ret true, s2) ->
  information_rows s2 = information_rows s1.
Proof.
  intros Hfirst Hsame Hsecond.
  pose proof (insert_company_data_table env data s) as (_ & _ & Htab).
  pose proof (insert_company_data_table env data s1') as (_ & _ & Htab').
  rewrite Hfirst in Htab. rewrite Hsecond in Htab'. simpl in Htab, Htab'.
  destruct Htab as [(_ & _ & _ & _ & (t & _ & Ht1) & _)|(Hne & _)]; [|contradiction].
  destruct Htab' as [(_ & _ & _ & _ & (t' & Ht' & Ht2) & _)|(Hne & _)]; [|contradiction].
  unfold information_rows. rewrite Ht2, Ht1. rewrite Hsame, Ht1 in Ht'.
  injection Ht' as <-. apply insert_twice.
Qed.

Lemma insert_company_data_twice_witness :
  let s := Scenario.holding Scenario.old_tcs_row in
  let s1 := snd (insert_company_data Scenario.env_ok Scenario.tcs_data s) in
  let s1' := record_event (Sleep 1) s1 in
  let s2 := snd (insert_company_data Scenario.env_ok Scenario.tcs_data s1') in
  insert_company_data Scenario.env_ok Scenario.tcs_data s = (Ret true, s1) /\
  insert_company_data Scenario.env_ok Scenario.tcs_data s1' = (Ret true, s2) /\
  current_timestamp Scenario.env_ok (trace s)
  < current_timestamp Scenario.env_ok (trace s1') /\
  information_rows s2 = information_rows s1.
Proof.
  intros s s1 s1' s2.
  assert (H1 : insert_company_data Scenario.env_ok Scenario.tcs_data s = (Ret true, s1))
    by (vm_compute; reflexivity).
  assert (H2 : insert_company_data Scenario.env_ok Scenario.tcs_data s1' = (Ret true, s2))
    by (vm_compute; reflexivity).
  split; [exact H1|]. split; [exact H2|]. split; [vm_compute; reflexivity|].
  exact (insert_company_data_twice Scenario.env_ok Scenario.tcs_data s s1 s1' s2
           H1 eq_refl H2).
Defined.

(** * What a run keeps in the destination table *)



Lemma holds_listed_by_symbol (env : Env) (companies : list (string * string)) (r r' : Row) :
  symbol r = symbol r' -> holds_listed env companies r = holds_listed env companies r'.
Proof.
  intros Hr. unfold holds_listed.
  induction (List.map fst companies) as [|sym l IH]; simpl; [reflexivity|].
  rewrite IH. f_equal. now apply has_symbol_by_symbol.
Qed.

(** X10.  A run touches only rows of listed symbols: the rows that the
    server finds under no symbol of the source table (compared by the
    collation of the column) are exactly the same after
    [process_all_companies], however the run ends. *)
Theorem process_all_companies_other_rows (env : Env) (delay : Q) (s : State) :
  unlisted_rows env (source_table s) (snd (process_all_companies env delay s))
  = unlisted_rows env (source_table s) s.
Proof.
  unfold unlisted_rows.
  apply (process_all_companies_rows env delay
           (fun l => List.filter (fun r => negb (holds_listed env (source_table s) r)) l
                     = List.filter (fun r => negb (holds_listed env (source_table s) r))
                         (information_rows s)));
    [|reflexivity].
  intros now v t (sym & Hv & Hin) <-. apply insert_keeps_others.
  - intros r r' Hr. f_equal. now apply holds_listed_by_symbol.
  - intros r Hr. rewrite Hv in Hr.
    assert (Hlisted : holds_listed env (source_table s) r = true).
    { unfold holds_listed. apply existsb_exists. exists sym. split; assumption. }
    now rewrite Hlisted.
Qed.

(** X11.  A run never removes or reorders a row of the destination table
    and never changes the [id], the symbol or the [created_at] of a row:
    the (id, symbol, created_at) of the rows before the run are a prefix
    of those after it; new rows come at the end. *)
Theorem process_all_companies_keeps_rows (env : Env) (delay : Q) (s : State) :
  List.map row_identity (information_rows s)
  `prefix_of`
  List.map row_identity (information_rows (snd (process_all_companies env delay s))).
Proof.
  apply (process_all_companies_rows env delay
           (fun l => List.map row_identity (information_rows s)
                     `prefix_of` List.map row_identity l)); [|reflexivity].
  intros now v t _ Hpre. etransitivity; [exact Hpre|].
  apply insert_keeps_identities.
Qed.

(** * What the loop never does *)

(** X12.  The loop only prints its per-symbol lines, asks the provider,
    sends the upsert, commits and sleeps: however it ends, it has not
    connected, closed the connection, created the table, read the source
    table again or printed a line of the summary. *)
Theorem process_loop_calls
    (env : Env) (delay : Q) (total idx : nat)
    (companies : list (string * string)) (c : nat * nat) (s : State) :
  exists evs,
    trace (snd (process_loop env delay total idx companies c s)) = trace s ++ evs /\
    forallb iteration_event evs = true.
Proof.
  destruct (process_loop_effects env delay total (fun _ => True) companies
              (fun _ _ _ _ _ => I) idx c s) as ((evs & Htr & Hev & _) & _).
  exists evs. split; assumption.
Qed.

(** X13.  An iteration that returns has raised one counter, in one of
    three ways.  It raised [successful] after the upsert keyed by its
    symbol went into the destination table and was committed, so the
    server finds a row under the symbol.  Or it raised [failed] and left
    the destination table untouched.  Or it raised [failed] because
    [commit()] raised after the server had accepted the upsert, which the
    connection then has in its table.  When no commit fails, a failed
    iteration has left the table untouched. *)
Theorem process_company_outcome
    (env : Env) (delay : Q) (total idx : nat) (symbol name : string)
    (su fa : nat) (s s' : State) (c : nat * nat) :
  process_company env delay total idx (symbol, name) (su, fa) s = (Ret c, s') ->
  let upserted :=
    exists now v t, v_symbol v = VStr symbol /\
                    information_table s = Some t /\
                    information_table s'
                    = Some (insert_on_duplicate_key_update (collation env) now v t) in
  ((c = (S su, fa) /\ upserted /\ stored env (VStr symbol) s' <> []) \/
   (c = (su, S fa) /\ information_table s' = information_table s) \/
   (c = (su, S fa) /\ upserted /\ exists h msg, commit_fault env h = Some msg)) /\
  ((forall h, commit_fault env h = None) ->
   c = (su, S fa) -> information_table s' = information_table s).
Proof.
  intros Hstep upserted.
  assert (Hcases :
            (c = (S su, fa) /\ upserted /\ stored env (VStr symbol) s' <> []) \/
            (c = (su, S fa) /\ information_table s' = information_table s) \/
            (c = (su, S fa) /\ upserted /\ exists h msg, commit_fault env h = Some msg)).
  { subst upserted. revert Hstep. rewrite process_company_eq.
    set (s0 := record_event (Stdout (ProcessingMsg idx total name symbol)) s).
    destruct (yf_info env (trace s0) symbol) as [info|e].
    - set (s1 := record_event (Ticker symbol) s0).
      pose proof (insert_company_data_table env (fetched_data symbol info) s1)
        as (_ & _ & Htab).
      destruct (insert_company_data env (fetched_data symbol info) s1)
        as [[[|]|e] s2]; simpl in Htab; [| |discriminate].
      + destruct (pause_cases env delay (S su, fa)
                    (record_event (Stdout (InsertedMsg symbol)) s2))
          as [(-> & _)|(e & ->)]; [|discriminate].
        intros [= <- <-]. left.
        destruct Htab as [(_ & _ & _ & _ & (t & Ht & Ht2) & _)|(Hne & _)];
          [|contradiction].
        split; [reflexivity|]. split.
        * exists (current_timestamp env (trace s1)),
            (values_of (fetched_data symbol info)), t.
          split; [apply fetched_values_symbol|]. split; assumption.
        * unfold stored, information_rows. simpl. rewrite Ht2.
          rewrite <- (fetched_values_symbol symbol info). apply insert_key_present.
      + destruct (pause_cases env delay (su, S fa) s2) as [(-> & _)|(e & ->)];
          [|discriminate].
        intros [= <- <-]. right.
        destruct Htab as [(_ & _ & _ & _ & (t & Ht & Ht2)
                           & [(Htrue & _)|(_ & msg & Hmsg)])
                         |(_ & Hsame)]; [discriminate| |left; split; [reflexivity|exact Hsame]].
        right. split; [reflexivity|]. split; [|eauto].
        exists (current_timestamp env (trace s1)),
          (values_of (fetched_data symbol info)), t.
        split; [apply fetched_values_symbol|]. split; assumption.
    - match goal with
      | |- context [pause env delay ?c0 ?st] =>
          destruct (pause_cases env delay c0 st) as [(-> & _)|(e' & ->)]
      end; [|discriminate].
      intros [= <- <-]. right. left. split; reflexivity. }
  split; [exact Hcases|].
  intros Hcommit Hc.
  destruct Hcases as [(Hc' & _)|[(_ & Hsame)|(_ & _ & h & msg & Hmsg)]];
    [rewrite Hc in Hc'; injection Hc'; lia|exact Hsame|].
  rewrite Hcommit in Hmsg. discriminate.
Qed.

Lemma process_company_outcome_witness :
  let s := Scenario.holding Scenario.old_tcs_row in
  let r := process_company MoreRuns.env_read_only 1 2 1
             ("TCS.NS", "Tata Consultancy") (0, 0)%nat s in
  r = (Ret (0, 1)%nat, snd r) /\ information_table (snd r) = information_table s.
Proof.
  intros s r.
  assert (H : r = (Ret (0, 1)%nat, snd r)) by (vm_compute; reflexivity).
  split; [exact H|].
  destruct (process_company_outcome MoreRuns.env_read_only 1 2 1
              "TCS.NS" "Tata Consultancy" 0 0 s (snd r) (0, 1)%nat H)
    as (_ & Hsame).
  apply Hsame; [intros h|]; reflexivity.
Defined.

(** * How a run ends *)

(** X14.  With a delay that [time.sleep] accepts, [process_all_companies]
    returns normally whatever the answers of the server and of the
    provider: every [Error] of a server call and every exception of the
    provider call is caught on the way. *)
Theorem process_all_companies_returns (env : Env) (delay : Q) (s : State) :
  sleep_accepted env delay ->
  exists s', process_all_companies env delay s = (Ret tt, s').
Proof.
  intros Hd. rewrite process_all_companies_cases.
  destruct (connect_db_frame env s) as ((flag & Hflag) & _).
  destruct (connect_db env s) as [[flag'|e] s1]; [|discriminate].
  destruct (truthy_flag flag'); [|eauto].
  destruct (create_table_frame env s1) as ((b & Hb) & _).
  destruct (create_table env s1) as [[[|]|e] s2]; [|eauto|discriminate].
  destruct (get_company_symbols_setup env s2) as (((l & Hl) & _) & _).
  destruct (get_company_symbols env s2) as [[companies|e] s3]; [|discriminate].
  destruct (process_loop_returns env delay (length companies) companies Hd 1%nat 0%nat 0%nat
              (record_event (Stdout (StartingMsg (length companies))) s3))
    as (su & fa & s4 & -> & _).
  destruct (close_connection_frame env
              (record_events (summary_events (length companies) su fa) s4))
    as (s5 & -> & _).
  eauto.
Qed.

Lemma process_all_companies_returns_witness :
  sleep_accepted MoreRuns.env_commit_fails 0 /\
  exists s', process_all_companies MoreRuns.env_commit_fails 0
               (Scenario.fresh Scenario.two_companies None) = (Ret tt, s').
Proof.
  assert (Hd : sleep_accepted MoreRuns.env_commit_fails 0)
    by (split; [vm_compute; reflexivity|intros h; reflexivity]).
  split; [exact Hd|].
  exact (process_all_companies_returns MoreRuns.env_commit_fails 0
           (Scenario.fresh Scenario.two_companies None) Hd).
Defined.

(** A negative number of seconds is a negative number of nanoseconds. *)
Lemma nanoseconds_negative (delay : Q) :
  Qle_bool 0 delay = false -> nanoseconds delay < 0.
Proof.
  intros Hd. unfold nanoseconds. rewrite Hd.
  assert (Hneg : (delay < 0)%Q).
  { apply Qnot_le_lt. intros H. apply Qle_bool_iff in H. congruence. }
  assert (Hprod : (delay * (1000000000 # 1) < inject_Z 0)%Q).
  { destruct delay as [n d]. unfold Qlt in *. simpl in *. lia. }
  rewrite Zlt_Qlt. eapply Qle_lt_trans; [apply Qfloor_le|exact Hprod].
Qed.

(** A negative delay within the 64-bit range of nanoseconds is refused
    with a [ValueError]. *)
Lemma time_sleep_check_negative (delay : Q) :
  Qle_bool 0 delay = false ->
  - 9223372036854775808 <= nanoseconds delay ->
  time_sleep_check delay = Some (ValueError "sleep length must be non-negative").
Proof.
  intros Hd Hrange. pose proof (nanoseconds_negative delay Hd) as Hneg.
  unfold time_sleep_check. cbv zeta.
  rewrite (proj2 (Z.ltb_ge _ _) Hrange).
  rewrite (proj2 (Z.leb_gt _ _)) by lia.
  rewrite (proj2 (Z.ltb_lt _ _) Hneg). reflexivity.
Qed.



(** X16.  When [connect_db] returns a false value, or [create_table]
    returns [False], [process_all_companies] returns at once with the
    state that call left: the provider is not asked, nothing sleeps, no
    upsert is attempted and the rows of the destination table are as
    before the run. *)
Theorem process_all_companies_early_return
    (env : Env) (delay : Q) (s s1 : State) (flag : option bool) :
  connect_db env s = (Ret flag, s1) ->
  truthy_flag flag = false \/ fst (create_table env s1) = Ret false ->
  exists s',
    process_all_companies env delay s = (Ret tt, s') /\
    (truthy_flag flag = false -> s' = s1) /\
    (truthy_flag flag = true -> s' = snd (create_table env s1)) /\
    tickers (trace s') = tickers (trace s) /\
    sleeps (trace s') = sleeps (trace s) /\
    upsert_keys (trace s') = upsert_keys (trace s) /\
    information_rows s' = information_rows s.
Proof.
  intros Hconnect Hfail. rewrite process_all_companies_cases.
  pose proof (connect_db_frame env s) as (_ & Ht1 & Hs1 & Hu1 & _ & Hr1 & _).
  rewrite Hconnect in Ht1, Hs1, Hu1, Hr1 |- *. simpl in Ht1, Hs1, Hu1, Hr1.
  destruct (truthy_flag flag) eqn:Hflag.
  - destruct Hfail as [Hfail|Hfail]; [discriminate|].
    pose proof (create_table_frame env s1) as (_ & Ht2 & Hs2 & Hu2 & _ & Hr2 & _).
    destruct (create_table env s1) as [[[|]|e] s2]; try discriminate Hfail.
    simpl in Ht2, Hs2, Hu2, Hr2.
    exists s2. repeat split; congruence.
  - exists s1. repeat split; congruence.
Qed.

Lemma process_all_companies_early_return_witness :
  let s := Scenario.fresh Scenario.two_companies None in
  connect_db MoreRuns.env_unreachable s
  = (Ret (Some false), snd (connect_db MoreRuns.env_unreachable s)) /\
  process_all_companies MoreRuns.env_unreachable 1 s
  = (Ret tt, snd (connect_db MoreRuns.env_unreachable s)) /\
  tickers (trace (snd (connect_db MoreRuns.env_unreachable s))) = [].
Proof.
  intros s.
  assert (Hconnect : connect_db MoreRuns.env_unreachable s
                     = (Ret (Some false), snd (connect_db MoreRuns.env_unreachable s)))
    by (vm_compute; reflexivity).
  split; [exact Hconnect|].
  destruct (process_all_companies_early_return MoreRuns.env_unreachable 1 s _ _
              Hconnect (or_introl eq_refl))
    as (s' & Hrun & Hs' & _ & Ht & _).
  rewrite <- (Hs' eq_refl). split; [exact Hrun|exact Ht].
Defined.

(** * Runs where every symbol fares alike *)

Section UniformRuns.

Variables (env : Env) (delay : Q) (total : nat).

Hypothesis accepted : sleep_accepted env delay.

(** The provider answers, the connection holds and the server accepts:
    every pair is counted as successful and its symbol has a row. *)
Lemma process_loop_all_stored (companies : list (string * string)) :
  provider_answers env companies ->
  upserts_accepted env ->
  connection_kept env ->
  forall (idx su fa : nat) (s : State),
    connection s = Some {| closed := false |} ->
    is_Some (information_table s) ->
    exists s',
      process_loop env delay total idx companies (su, fa) s
      = (Ret ((su + length companies)%nat, fa), s') /\
      forall symbol, In symbol (List.map fst companies) ->
                     stored env (VStr symbol) s' <> [].
Proof.
  intros Hprov (Hcur & Hacc & Hcommit) Hkept. destruct accepted as [Hcheck Hos].
  induction companies as [|[symbol name] rest IH]; intros idx su fa s Hc [t Ht].
  - exists s. simpl. rewrite Nat.add_0_r. split; [reflexivity|]. intros ? [].
  - rewrite process_loop_cons, process_company_eq.
    set (s0 := record_event (Stdout (ProcessingMsg idx total name symbol)) s).
    destruct (Hprov (trace s0) symbol) as (info & ->); [simpl; auto|].
    destruct (fetched_data_lookup symbol info) as (Hk & Hr & Hcp & Hi & Hs).
    rewrite insert_company_data_eq by (eexists; eassumption).
    assert (Hc1 : not_connected env (record_event (Ticker symbol) s0) = false).
    { rewrite not_connected_open by exact Hc. now rewrite Hkept. }
    assert (Ht1 : information_table (record_event (Ticker symbol) s0) = Some t)
      by exact Ht.
    rewrite Hc1, Hcur, Hacc, Ht1.
    rewrite (bool_decide_eq_false_2 _)
      by (rewrite fetched_values_symbol; discriminate).
    cbv zeta. rewrite Hcommit. unfold pause. rewrite Hcheck, Hos.
    match goal with
    | |- context [process_loop _ _ _ _ _ _ ?st] => set (s3 := st)
    end.
    assert (Hprov' : provider_answers env rest).
    { intros h sym Hin. apply Hprov. simpl. auto. }
    destruct (IH Hprov' (S idx) (S su) fa s3) as (s' & Hloop & Hrest);
      [exact Hc|subst s3; simpl; eauto|].
    exists s'. split.
    + rewrite Hloop. simpl. do 3 f_equal. lia.
    + intros sym [<-|Hin]; [|now apply Hrest].
      pose proof (process_loop_effects env delay total
                    (fun l => List.filter (has_symbol (collation env) (VStr symbol)) l <> [])
                    rest
                    (fun now v t _ => insert_keeps_present (collation env) now v t
                                        (VStr symbol))
                    (S idx) (S su, fa) s3) as (_ & Hkeep).
      rewrite Hloop in Hkeep. apply Hkeep.
      subst s3. unfold information_rows. simpl.
      rewrite <- (fetched_values_symbol symbol info). apply insert_key_present.
Qed.

(** The provider raises: every pair is counted as failed and nothing is
    sent to the server. *)
Lemma process_loop_all_failed (companies : list (string * string)) :
  provider_raises env companies ->
  forall (idx su fa : nat) (s : State),
    exists s',
      process_loop env delay total idx companies (su, fa) s
      = (Ret (su, (fa + length companies)%nat), s') /\
      information_table s' = information_table s /\
      connection s' = connection s /\
      (exists evs, trace s' = trace s ++ evs /\
                   List.filter is_store_call evs = []).
Proof.
  intros Hprov. destruct accepted as [Hcheck Hos].
  induction companies as [|[symbol name] rest IH]; intros idx su fa s.
  - exists s. simpl. rewrite Nat.add_0_r. repeat split.
    exists []. now rewrite app_nil_r.
  - rewrite process_loop_cons, process_company_eq.
    set (s0 := record_event (Stdout (ProcessingMsg idx total name symbol)) s).
    destruct (Hprov (trace s0) symbol) as (e & ->); [simpl; auto|].
    unfold pause. rewrite Hcheck, Hos.
    match goal with
    | |- context [process_loop _ _ _ _ _ _ ?st] => set (s3 := st)
    end.
    assert (Hprov' : provider_raises env rest).
    { intros h sym Hin. apply Hprov. simpl. auto. }
    destruct (IH Hprov' (S idx) su (S fa) s3) as (s' & Hloop & Ht & Hc & evs & Htr & Hev).
    exists s'. split; [rewrite Hloop; simpl; do 3 f_equal; lia|].
    split; [exact Ht|]. split; [exact Hc|].
    exists ([Stdout (ProcessingMsg idx total name symbol); Ticker symbol;
             Stdout (FetchDataErrorMsg symbol e); Sleep delay] ++ evs).
    split.
    + rewrite Htr. subst s3 s0. simpl. now rewrite <- !app_assoc.
    + rewrite List.filter_app, Hev. reflexivity.
Qed.

End UniformRuns.

(** X17.  When [time.sleep] accepts the delay, the provider answers for
    every listed symbol, the connection answers whenever it is asked and
    the server accepts every upsert, from [cursor()] to [commit()], a run
    reports successful = total and failed = 0, closes the connection, and
    the server finds a row under every symbol of the list. *)
Theorem process_all_companies_all_stored
    (env : Env) (delay : Q) (s s1 s2 s3 : State) (companies : list (string * string)) :
  connect_db env s = (Ret (Some true), s1) ->
  create_table env s1 = (Ret true, s2) ->
  get_company_symbols env s2 = (Ret companies, s3) ->
  sleep_accepted env delay ->
  provider_answers env companies ->
  upserts_accepted env ->
  connection_kept env ->
  exists s' pre,
    process_all_companies env delay s = (Ret tt, s') /\
    trace s' = pre ++ summary_events (length companies) (length companies) 0
                   ++ [Close; Stdout ClosedMsg] /\
    forall symbol, In symbol (List.map fst companies) ->
                   stored env (VStr symbol) s' <> [].
Proof.
  intros Hconnect Hcreate Hget Hd Hprov Hacc Hkept.
  rewrite (process_all_companies_eq env delay _ s s1 s2 s3 _ Hconnect Hcreate Hget eq_refl).
  destruct (loop_start_ready env s s1 s2 s3 companies (length companies)
              Hconnect Hcreate Hget) as (Hn & Ht & Hsome).
  pose proof (summary_state_open env delay s s1 s2 s3 companies (length companies) (0, 0)%nat
                (summary_events (length companies) (length companies) 0)
                Hconnect Hcreate Hget) as Hopen.
  set (s0 := record_event (Stdout (StartingMsg (length companies))) s3) in *.
  destruct (process_loop_all_stored env delay (length companies) Hd companies Hprov Hacc
              Hkept 1%nat 0%nat 0%nat s0 Hn) as (s4 & Hloop & Hstored);
    [now rewrite Ht|].
  rewrite Hloop in Hopen |- *. simpl snd in Hopen. cbn [Nat.add].
  destruct (close_connection_frame env
              (record_events (summary_events (length companies) (length companies) 0) s4))
    as (s5 & -> & _ & Ht5 & _ & Htr5).
  rewrite (closing_open env _ Hopen), Hkept in Htr5.
  exists s5, (trace s4). split; [reflexivity|]. split.
  - rewrite Htr5, trace_record_events. now rewrite <- app_assoc.
  - intros symbol Hin. unfold stored, information_rows. rewrite Ht5.
    rewrite information_table_record_events. now apply Hstored.
Qed.

Lemma process_all_companies_all_stored_witness :
  let s := Scenario.fresh MoreRuns.listed_companies None in
  let s1 := snd (connect_db Scenario.env_ok s) in
  let s2 := snd (create_table Scenario.env_ok s1) in
  let s3 := snd (get_company_symbols Scenario.env_ok s2) in
  sleep_accepted Scenario.env_ok (1 # 2) /\
  provider_answers Scenario.env_ok MoreRuns.listed_companies /\
  upserts_accepted Scenario.env_ok /\
  connection_kept Scenario.env_ok /\
  exists s' pre,
    process_all_companies Scenario.env_ok (1 # 2) s = (Ret tt, s') /\
    trace s' = pre ++ summary_events 2 2 0 ++ [Close; Stdout ClosedMsg] /\
    stored Scenario.env_ok (VStr "NEWCO.NS") s' <> [].
Proof.
  intros s s1 s2 s3.
  assert (Hconnect : connect_db Scenario.env_ok s = (Ret (Some true), s1))
    by (vm_compute; reflexivity).
  assert (Hcreate : create_table Scenario.env_ok s1 = (Ret true, s2))
    by (vm_compute; reflexivity).
  assert (Hget : get_company_symbols Scenario.env_ok s2
                 = (Ret MoreRuns.listed_companies, s3))
    by (vm_compute; reflexivity).
  assert (Hd : sleep_accepted Scenario.env_ok (1 # 2))
    by (split; [vm_compute; reflexivity|intros h; reflexivity]).
  assert (Hprov : provider_answers Scenario.env_ok MoreRuns.listed_companies).
  { intros h symbol [<-|[<-|[]]]; eexists; reflexivity. }
  assert (Hacc : upserts_accepted Scenario.env_ok)
    by (split; [intros h|split; [intros h v|intros h]]; reflexivity).
  assert (Hkept : connection_kept Scenario.env_ok) by (intros h; reflexivity).
  split; [exact Hd|]. split; [exact Hprov|]. split; [exact Hacc|]. split; [exact Hkept|].
  destruct (process_all_companies_all_stored Scenario.env_ok (1 # 2) s s1 s2 s3
              MoreRuns.listed_companies Hconnect Hcreate Hget Hd Hprov Hacc Hkept)
    as (s' & pre & Hrun & Htr & Hstored).
  exists s', pre. split; [exact Hrun|]. split; [exact Htr|].
  apply Hstored. simpl. auto.
Defined.

(** X18.  When the provider raises for every listed symbol, a run with
    a delay that [time.sleep] accepts reports successful = 0 and failed =
    total, and closes the connection if it still answers; after the
    SELECT nothing is sent to the server, and the destination table is as
    [create_table] left it. *)
Theorem process_all_companies_all_failed
    (env : Env) (delay : Q) (s s1 s2 s3 : State) (companies : list (string * string)) :
  connect_db env s = (Ret (Some true), s1) ->
  create_table env s1 = (Ret true, s2) ->
  get_company_symbols env s2 = (Ret companies, s3) ->
  sleep_accepted env delay ->
  provider_raises env companies ->
  exists s' evs,
    process_all_companies env delay s = (Ret tt, s') /\
    (let printed := trace s3 ++ evs
                    ++ summary_events (length companies) 0 (length companies) in
     trace s' = printed ++ (if mysql_ping env printed
                            then [Close; Stdout ClosedMsg] else [])) /\
    List.filter is_store_call evs = [] /\
    information_table s' = information_table s2.
Proof.
  intros Hconnect Hcreate Hget Hd Hprov.
  rewrite (process_all_companies_eq env delay _ s s1 s2 s3 _ Hconnect Hcreate Hget eq_refl).
  destruct (loop_start_ready env s s1 s2 s3 companies (length companies)
              Hconnect Hcreate Hget) as (Hn & Ht & _).
  pose proof (summary_state_open env delay s s1 s2 s3 companies (length companies) (0, 0)%nat
                (summary_events (length companies) 0 (length companies))
                Hconnect Hcreate Hget) as Hopen.
  set (s0 := record_event (Stdout (StartingMsg (length companies))) s3) in *.
  destruct (process_loop_all_failed env delay (length companies) Hd companies Hprov
              1%nat 0%nat 0%nat s0) as (s4 & Hloop & Ht4 & Hc4 & evs & Htr4 & Hev).
  rewrite Hloop in Hopen |- *. simpl snd in Hopen. cbn [Nat.add].
  destruct (close_connection_frame env
              (record_events (summary_events (length companies) 0 (length companies)) s4))
    as (s5 & -> & _ & Ht5 & _ & Htr5).
  rewrite (closing_open env _ Hopen), trace_record_events in Htr5.
  exists s5, (Stdout (StartingMsg (length companies)) :: evs).
  split; [reflexivity|]. split; [|split].
  - cbv zeta. rewrite Htr5, Htr4. subst s0. simpl trace.
    replace ((trace s3 ++ [Stdout (StartingMsg (length companies))]) ++ evs)
      with (trace s3 ++ Stdout (StartingMsg (length companies)) :: evs)
      by (now rewrite <- app_assoc).
    rewrite <- !app_assoc. rewrite !app_assoc. reflexivity.
  - simpl. exact Hev.
  - rewrite Ht5, information_table_record_events, Ht4. exact Ht.
Qed.

Lemma process_all_companies_all_failed_witness :
  let s := Scenario.fresh MoreRuns.unlisted_companies
             (Some {| rows := [Scenario.tcs_row]; auto_increment := 2 |}) in
  let s1 := snd (connect_db Scenario.env_ok s) in
  let s2 := snd (create_table Scenario.env_ok s1) in
  let s3 := snd (get_company_symbols Scenario.env_ok s2) in
  sleep_accepted Scenario.env_ok 1 /\
  provider_raises Scenario.env_ok MoreRuns.unlisted_companies /\
  exists s' evs,
    process_all_companies Scenario.env_ok 1 s = (Ret tt, s') /\
    trace s' = (trace s3 ++ evs ++ summary_events 2 0 2) ++ [Close; Stdout ClosedMsg] /\
    information_table s' = Some {| rows := [Scenario.tcs_row]; auto_increment := 2 |}.
Proof.
  intros s s1 s2 s3.
  assert (Hconnect : connect_db Scenario.env_ok s = (Ret (Some true), s1))
    by (vm_compute; reflexivity).
  assert (Hcreate : create_table Scenario.env_ok s1 = (Ret true, s2))
    by (vm_compute; reflexivity).
  assert (Hget : get_company_symbols Scenario.env_ok s2
                 = (Ret MoreRuns.unlisted_companies, s3))
    by (vm_compute; reflexivity).
  assert (Hd : sleep_accepted Scenario.env_ok 1)
    by (split; [vm_compute; reflexivity|intros h; reflexivity]).
  assert (Hprov : provider_raises Scenario.env_ok MoreRuns.unlisted_companies).
  { intros h symbol [<-|[<-|[]]]; eexists; reflexivity. }
  split; [exact Hd|]. split; [exact Hprov|].
  destruct (process_all_companies_all_failed Scenario.env_ok 1 s s1 s2 s3
              MoreRuns.unlisted_companies Hconnect Hcreate Hget Hd Hprov)
    as (s' & evs & Hrun & Htr & _ & Ht).
  exists s', evs. split; [exact Hrun|]. split; [exact Htr|].
  rewrite Ht. reflexivity.
Defined.

(** X19.  A run that got past [create_table] and returns has called
    [close()] at most once: exactly once, as its last action but for the
    line it prints after it, when the connection still answers after the
    summary, and not at all when it does not.  Either way the extractor
    is not connected when the run is over. *)
Theorem process_all_companies_closes_once
    (env : Env) (delay : Q) (s s1 s2 s' : State) :
  connect_db env s = (Ret (Some true), s1) ->
  create_table env s1 = (Ret true, s2) ->
  process_all_companies env delay s = (Ret tt, s') ->
  not_connected env s' = true /\
  exists printed,
    trace s' = printed ++ (if mysql_ping env printed
                           then [Close; Stdout ClosedMsg] else []) /\
    List.filter is_close printed = List.filter is_close (trace s) /\
    List.filter is_close (trace s')
    = List.filter is_close (trace s)
      ++ (if mysql_ping env printed then [Close] else []).
Proof.
  intros Hconnect Hcreate.
  pose proof (get_company_symbols_setup env s2) as ((Hret & _ & _ & _ & Hcl3 & _) & _).
  destruct (get_company_symbols env s2) as [[companies|e] s3] eqn:Hget;
    [|destruct Hret; discriminate].
  simpl in Hcl3.
  rewrite (process_all_companies_eq env delay _ s s1 s2 s3 _ Hconnect Hcreate Hget eq_refl).
  pose proof (connect_db_frame env s) as (_ & _ & _ & _ & Hcl1 & _).
  pose proof (create_table_frame env s1) as (_ & _ & _ & _ & Hcl2 & _).
  rewrite Hconnect in Hcl1. rewrite Hcreate in Hcl2. simpl in Hcl1, Hcl2.
  pose proof (summary_state_open env delay s s1 s2 s3 companies (length companies) (0, 0)%nat)
    as Hopen.
  set (s0 := record_event (Stdout (StartingMsg (length companies))) s3) in *.
  pose proof (process_loop_effects env delay (length companies) (fun _ => True) companies
                (fun _ _ _ _ _ => I) 1%nat (0, 0)%nat s0)
    as ((evs & Htr & _ & Hcl) & _).
  destruct (process_loop env delay _ 1 companies _ s0) as [[[su fa]|e] s4];
    [|discriminate].
  simpl in Htr.
  specialize (Hopen (summary_events (length companies) su fa) Hconnect Hcreate Hget).
  simpl snd in Hopen.
  destruct (close_connection_frame env
              (record_events (summary_events (length companies) su fa) s4))
    as (s5 & -> & Hn5 & _ & _ & Htr5).
  rewrite (closing_open env _ Hopen) in Htr5.
  intros [= <-]. split; [exact Hn5|].
  exists (trace (record_events (summary_events (length companies) su fa) s4)).
  assert (Hprinted : List.filter is_close
                       (trace (record_events (summary_events (length companies) su fa) s4))
                     = List.filter is_close (trace s)).
  { rewrite trace_record_events, Htr. subst s0. simpl.
    rewrite !List.filter_app, Hcl, Hcl3, Hcl2, Hcl1. simpl.
    now rewrite !app_nil_r. }
  split; [exact Htr5|]. split; [exact Hprinted|].
  rewrite Htr5, List.filter_app, Hprinted.
  destruct (mysql_ping env _); reflexivity.
Qed.

Lemma process_all_companies_closes_once_witness :
  let s := Scenario.fresh Scenario.two_companies None in
  let s1 := snd (connect_db Scenario.env_ok s) in
  let s2 := snd (create_table Scenario.env_ok s1) in
  let s' := snd (process_all_companies Scenario.env_ok 1 s) in
  process_all_companies Scenario.env_ok 1 s = (Ret tt, s') /\
  List.filter is_close (trace s') = [Close] /\
  not_connected Scenario.env_ok s' = true.
Proof.
  intros s s1 s2 s'.
  assert (Hconnect : connect_db Scenario.env_ok s = (Ret (Some true), s1))
    by (vm_compute; reflexivity).
  assert (Hcreate : create_table Scenario.env_ok s1 = (Ret true, s2))
    by (vm_compute; reflexivity).
  assert (Hrun : process_all_companies Scenario.env_ok 1 s = (Ret tt, s'))
    by (vm_compute; reflexivity).
  split; [exact Hrun|].
  destruct (process_all_companies_closes_once Scenario.env_ok 1 s s1 s2 s'
              Hconnect Hcreate Hrun) as (Hn & printed & _ & _ & Hcl).
  split; [exact Hcl|exact Hn].
Defined.
